(** * Groq chatbot (Flask + MongoDB): a shallow embedding of [app.py]

    The request handlers of [app.py] are embedded as computations in a
    state-and-exception monad; its start-up code and the script
    [test_mongodb.py] as functions on the database.  The state holds what the handlers read and
    mutate: the contents behind the [conversations] collection handle, the
    Flask [session] dictionary and the counters of the three sources of
    non-determinism (store faults, [secrets.token_hex], [datetime.now]).
    The external services are oracles collected in [services]. *)

From stdpp Require Import gmap strings list fin_maps.
From Stdlib Require Import ZArith Lia.

Local Open Scope string_scope.
Local Open Scope list_scope.

(** ** Values *)

(** JSON scalars as they reach Python: [None], [str], [int], [bool]. *)
Inductive pyval : Type :=
  | PNone
  | PStr (s : string)
  | PInt (z : Z)
  | PBool (b : bool).

Global Instance pyval_eq_dec : EqDecision pyval.
Proof. solve_decision. Defined.

(** [datetime.now()] values, and [str(e)] of a raised [Exception]. *)
Definition time := nat.
Definition exn := string.

(** A stored message: [{'role': .., 'content': .., 'timestamp': ..}]. *)
Record message : Type := Message {
  role : string;
  content : pyval;
  timestamp : time
}.

Global Instance message_eq_dec : EqDecision message.
Proof. solve_decision. Defined.

(** A message of the completion request: [{'role': .., 'content': ..}]. *)
Record chat_message : Type := ChatMessage {
  cm_role : string;
  cm_content : pyval
}.

Global Instance chat_message_eq_dec : EqDecision chat_message.
Proof. solve_decision. Defined.

(** A document of the [conversations] collection.  A field that a document
    does not have is [None]; [_id] is absent until the document is stored.
    [test], [test_timestamp] and [test_message] are the fields ['test'],
    ['timestamp'] and ['message'] of the probe document of [/test-mongodb]. *)
Record document : Type := Document {
  _id : option nat;
  session_id : option string;
  messages : option (list message);
  created_at : option time;
  updated_at : option time;
  test : option bool;
  test_timestamp : option time;
  test_message : option string
}.

Global Instance document_eq_dec : EqDecision document.
Proof. solve_decision. Defined.

(** What [jsonify] is given: a dictionary of scalars or of stored messages. *)
Inductive jval : Type :=
  | JVal (v : pyval)
  | JMessages (l : list message).

Global Instance jval_eq_dec : EqDecision jval.
Proof. solve_decision. Defined.

Definition JStr (s : string) : jval := JVal (PStr s).

(** The body of a request as [request.json] sees it. *)
Inductive request_body : Type :=
  | NotJson                                  (* [request.json] raises *)
  | JsonObject (o : gmap string pyval)       (* a JSON object: a [dict] *)
  | JsonOther.                               (* null, array, string, number *)

(** ** Results and the handler monad *)

Inductive result (A : Type) : Type :=
  | Ok (a : A)
  | Raise (e : exn).
Arguments Ok {A} a.
Arguments Raise {A} e.

(** The oracles of the two external services and of the runtime. *)
Record services : Type := Services {
  (* [groq_client]: [None] when not configured; otherwise the outcome of
     [chat.completions.create(...)] followed by
     [completion.choices[0].message.content] *)
  groq_client : option (list chat_message → result pyval);
  (* the n-th call on the collection raises [e] when [store_fault n = Some e] *)
  store_fault : nat → option exn;
  (* the n-th value of [secrets.token_hex(16)] *)
  token_hex : nat → string;
  (* the n-th value of [datetime.now()] *)
  datetime_now : nat → time;
  (* [render_template(name)]: the page, or the exception Flask raises when
     the template is missing or does not render *)
  render_template : string → result string
}.

Record state : Type := State {
  (* [None]: the handle [conversations] is [None]; otherwise the documents
     of the collection in insertion order *)
  conversations : option (list document);
  session : gmap string string;
  next_oid : nat;
  store_calls : nat;
  tokens_drawn : nat;
  clock_reads : nat;
  (* the message lists sent to the completion service so far *)
  completions : list (list chat_message)
}.

Definition M (A : Type) : Type := state → result A * state.

Definition ret {A} (a : A) : M A := λ st, (Ok a, st).

Definition raise {A} (e : exn) : M A := λ st, (Raise e, st).

Definition bind {A B} (m : M A) (k : A → M B) : M B :=
  λ st, match m st with
        | (Ok a, st') => k a st'
        | (Raise e, st') => (Raise e, st')
        end.

(** [try: body except Exception as e: handler e]; what [body] did to the
    state before raising stays done. *)
Definition try_except {A} (body : M A) (handler : exn → M A) : M A :=
  λ st, match body st with
        | (Ok a, st') => (Ok a, st')
        | (Raise e, st') => handler e st'
        end.

Notation "'do' x <- c ; k" := (bind c (λ x, k))
  (at level 10, x name, c at level 100, k at level 200,
   format "'[v' 'do'  x  <-  c ; '/' k ']'").
Notation "c ;; k" := (bind c (λ _, k))
  (at level 100, k at level 200, right associativity).

Definition modify (f : state → state) : M unit := λ st, (Ok tt, f st).

(** ** State updates *)

Definition with_conversations (c : option (list document)) (st : state) : state :=
  State c (session st) (next_oid st) (store_calls st) (tokens_drawn st)
        (clock_reads st) (completions st).

Definition with_session (s : gmap string string) (st : state) : state :=
  State (conversations st) s (next_oid st) (store_calls st) (tokens_drawn st)
        (clock_reads st) (completions st).

Definition with_next_oid (n : nat) (st : state) : state :=
  State (conversations st) (session st) n (store_calls st) (tokens_drawn st)
        (clock_reads st) (completions st).

Definition with_store_calls (n : nat) (st : state) : state :=
  State (conversations st) (session st) (next_oid st) n (tokens_drawn st)
        (clock_reads st) (completions st).

Definition with_tokens_drawn (n : nat) (st : state) : state :=
  State (conversations st) (session st) (next_oid st) (store_calls st) n
        (clock_reads st) (completions st).

Definition with_clock_reads (n : nat) (st : state) : state :=
  State (conversations st) (session st) (next_oid st) (store_calls st)
        (tokens_drawn st) n (completions st).

Definition with_completions (l : list (list chat_message)) (st : state) : state :=
  State (conversations st) (session st) (next_oid st) (store_calls st)
        (tokens_drawn st) (clock_reads st) l.

(** ** The collection: pymongo's calls on a list of documents *)

(** The two filters the handlers use: [{'session_id': sid}], [{'_id': oid}]. *)
Inductive query : Type :=
  | BySessionId (sid : string)
  | ById (oid : nat).

Definition matches (q : query) (d : document) : bool :=
  match q with
  | BySessionId sid => bool_decide (session_id d = Some sid)
  | ById oid => bool_decide (_id d = Some oid)
  end.

(** The update documents the handlers use: an optional
    [$push: {'messages': m}] and an optional [$set: {'updated_at': t}]. *)
Record update : Type := Update {
  push_messages : option message;
  set_updated_at : option time
}.

Definition apply_update (u : update) (d : document) : document :=
  Document (_id d) (session_id d)
    (match push_messages u with
     | Some m => Some (default [] (messages d) ++ [m])
     | None => messages d
     end)
    (created_at d)
    (match set_updated_at u with
     | Some t => Some t
     | None => updated_at d
     end)
    (test d) (test_timestamp d) (test_message d).

(** The document an upsert starts from: the equality fields of the filter. *)
Definition seed (q : query) (oid : nat) : document :=
  match q with
  | BySessionId sid => Document (Some oid) (Some sid) None None None None None None
  | ById i => Document (Some i) None None None None None None None
  end.

Definition coll_find_one (q : query) (c : list document) : option document :=
  List.find (matches q) c.

Fixpoint coll_delete_one (q : query) (c : list document) : list document :=
  match c with
  | [] => []
  | d :: c' => if matches q d then c' else d :: coll_delete_one q c'
  end.

Fixpoint coll_update_first (q : query) (f : document → document)
    (c : list document) : option (list document) :=
  match c with
  | [] => None
  | d :: c' =>
      if matches q d then Some (f d :: c')
      else match coll_update_first q f c' with
           | Some c'' => Some (d :: c'')
           | None => None
           end
  end.

Definition coll_update_one (q : query) (u : update) (upsert : bool)
    (c : list document) (oid : nat) : list document * nat :=
  match coll_update_first q (apply_update u) c with
  | Some c' => (c', oid)
  | None =>
      if upsert then (c ++ [apply_update u (seed q oid)], S oid) else (c, oid)
  end.

Definition with_id (oid : nat) (d : document) : document :=
  Document (Some oid) (session_id d) (messages d) (created_at d) (updated_at d)
           (test d) (test_timestamp d) (test_message d).

(** ** Runtime calls and the handlers of [app.py] *)

Section App.
Context (svc : services).

Definition datetime_now_call : M time :=
  λ st, (Ok (datetime_now svc (clock_reads st)),
         with_clock_reads (S (clock_reads st)) st).

Definition secrets_token_hex : M string :=
  λ st, (Ok (token_hex svc (tokens_drawn st)),
         with_tokens_drawn (S (tokens_drawn st)) st).

(** A method call on [conversations].  On [None] Python raises
    [AttributeError]; otherwise the call is counted and either raises the
    fault the oracle gives for it, leaving the collection as it was, or runs
    [op] on the documents and the next free [ObjectId]. *)
Definition collection_call {A} (method : string)
    (op : list document → nat → A * list document * nat) : M A :=
  λ st, match conversations st with
        | None =>
            (Raise ("'NoneType' object has no attribute '" +:+ method +:+ "'"), st)
        | Some c =>
            let st1 := with_store_calls (S (store_calls st)) st in
            match store_fault svc (store_calls st) with
            | Some e => (Raise e, st1)
            | None =>
                let '(a, c', oid') := op c (next_oid st) in
                (Ok a, with_next_oid oid' (with_conversations (Some c') st1))
            end
        end.

Definition find_one (q : query) : M (option document) :=
  collection_call "find_one" (λ c oid, (coll_find_one q c, c, oid)).

Definition update_one (q : query) (u : update) (upsert : bool) : M unit :=
  collection_call "update_one"
    (λ c oid, let '(c', oid') := coll_update_one q u upsert c oid in (tt, c', oid')).

(** [insert_one(d).inserted_id] *)
Definition insert_one (d : document) : M nat :=
  collection_call "insert_one" (λ c oid, (oid, c ++ [with_id oid d], S oid)).

Definition delete_one (q : query) : M unit :=
  collection_call "delete_one" (λ c oid, (tt, coll_delete_one q c, oid)).

(** [conversations is not None] *)
Definition conversations_is_not_None : M bool :=
  λ st, (Ok (bool_decide (conversations st ≠ None)), st).

(** [session.get(k)], [session[k] = v] *)
Definition session_get (k : string) : M (option string) :=
  λ st, (Ok (session st !! k), st).

Definition session_set (k v : string) : M unit :=
  modify (λ st, with_session (<[k := v]> (session st)) st).

(** Truth value of [session.get('session_id')]: [None] and [''] are false. *)
Definition truthy (o : option string) : bool :=
  match o with
  | None => false
  | Some s => bool_decide (s ≠ "")
  end.

(** [request.json.get(k)] *)
Definition request_json_get (body : request_body) (k : string) : M pyval :=
  match body with
  | NotJson => raise "415 Unsupported Media Type"
  | JsonObject o => ret (default PNone (o !! k))
  | JsonOther => raise "object has no attribute 'get'"
  end.

(** [l[-k:]] *)
Definition slice_last {A} (k : nat) (l : list A) : list A :=
  match k with
  | 0 => l
  | _ => drop (length l - k) l
  end.

(** [{'session_id': sid, 'messages': [], 'created_at': c, 'updated_at': u}] *)
Definition new_conversation (sid : string) (c u : time) : document :=
  Document None (Some sid) (Some []) (Some c) (Some u) None None None.

(** [render_template(name)] *)
Definition render_template_call (name : string) : M string :=
  λ st, (render_template svc name, st).

(** [GET /] (lines 112-131): the [try] block of lines 115-129, whose
    exceptions are printed and dropped, then line 131, which is outside it:
    what [render_template] raises leaves the handler. *)
Definition home : M string :=
  try_except
    (do sid <- session_get "session_id";
     match sid with
     | Some _ => ret tt
     | None =>
         do tok <- secrets_token_hex;
         session_set "session_id" tok ;;
         do connected <- conversations_is_not_None;
         if connected then
           do c <- datetime_now_call;
           do u <- datetime_now_call;
           do _ <- insert_one (new_conversation tok c u);
           ret tt
         else ret tt
     end)
    (λ e, ret tt) ;;
  render_template_call "index.html".

(** Lines 144-160 of [chat]: save the user message. *)
Definition save_user_message (sid : string) (user_message : pyval) : M unit :=
  do connected <- conversations_is_not_None;
  if connected then
    try_except
      (do ts <- datetime_now_call;
       do ua <- datetime_now_call;
       update_one (BySessionId sid)
         (Update (Some (Message "user" user_message ts)) (Some ua)) true)
      (λ e, ret tt)
  else ret tt.

(** Lines 169-175 of [chat]: get the chat history. *)
Definition fetch_chat_history (sid : string) : M (option document) :=
  do connected <- conversations_is_not_None;
  if connected then
    try_except (find_one (BySessionId sid)) (λ e, ret None)
  else ret None.

Definition system_prompt : chat_message :=
  ChatMessage "system"
    (PStr "You are a helpful AI assistant. Provide clear, concise, and accurate responses.").

Definition to_chat_message (msg : message) : chat_message :=
  ChatMessage (role msg) (content msg).

(** Lines 177-198 of [chat]: the messages for the completion call.  A
    document returned by [find_one] is a non-empty [dict] (it has [_id]), so
    [chat_history and 'messages' in chat_history] is: a document was found
    and it has the field [messages]. *)
Definition prepare_messages (chat_history : option document)
    (user_message : pyval) : list chat_message :=
  system_prompt ::
  match chat_history with
  | Some d =>
      match messages d with
      | Some l => to_chat_message <$> slice_last 10 l
      | None => [ChatMessage "user" user_message]
      end
  | None => [ChatMessage "user" user_message]
  end.

(** Lines 202-211: the completion call, recorded in [completions]. *)
Definition completions_create (g : list chat_message → result pyval)
    (msgs : list chat_message) : M pyval :=
  λ st, (g msgs, with_completions (completions st ++ [msgs]) st).

(** Lines 213-225 of [chat]: save the reply. *)
Definition save_ai_response (sid : string) (ai_response : pyval) : M unit :=
  do connected <- conversations_is_not_None;
  if connected then
    try_except
      (do ts <- datetime_now_call;
       update_one (BySessionId sid)
         (Update (Some (Message "assistant" ai_response ts)) None) false)
      (λ e, ret tt)
  else ret tt.

Definition groq_not_configured : gmap string jval :=
  {[ "response" := JStr "⚠️ Groq API is not configured. Please add GROQ_API_KEY to environment variables.";
     "status" := JStr "error" ]}.

Definition ai_service_error : gmap string jval :=
  {[ "response" := JStr "I encountered an error with the AI service. Please try again.";
     "status" := JStr "error" ]}.

Definition something_went_wrong : gmap string jval :=
  {[ "response" := JStr "Sorry, something went wrong. Please try again.";
     "status" := JStr "error" ]}.

(** [POST /chat] (lines 133-241) *)
Definition chat (body : request_body) : M (gmap string jval) :=
  try_except
    (do user_message <- request_json_get body "message";
     do sid0 <- session_get "session_id";
     do sid <- (if truthy sid0 then ret (default "" sid0)
                else do tok <- secrets_token_hex;
                     session_set "session_id" tok ;;
                     ret tok);
     save_user_message sid user_message ;;
     match groq_client svc with
     | None => ret groq_not_configured
     | Some g =>
         do chat_history <- fetch_chat_history sid;
         let msgs := prepare_messages chat_history user_message in
         try_except
           (do ai_response <- completions_create g msgs;
            save_ai_response sid ai_response ;;
            ret ({[ "response" := JVal ai_response;
                    "status" := JStr "success" ]} : gmap string jval))
           (λ e, ret ai_service_error)
     end)
    (λ e, ret something_went_wrong).

(** [GET /history] (lines 243-255) *)
Definition get_history : M (gmap string jval) :=
  do r <- try_except
    (do sid <- session_get "session_id";
     do connected <- conversations_is_not_None;
     if truthy sid && connected then
       do chat_history <- find_one (BySessionId (default "" sid));
       match chat_history with
       | Some d =>
           match messages d with
           | Some l => ret (Some ({[ "messages" := JMessages l ]} : gmap string jval))
           | None => ret None
           end
       | None => ret None
       end
     else ret None)
    (λ e, ret None);
  match r with
  | Some body => ret body
  | None => ret {[ "messages" := JMessages [] ]}
  end.

(** [POST /clear] (lines 257-283) *)
Definition clear_chat : M (gmap string jval) :=
  do r <- try_except
    (do sid <- session_get "session_id";
     do connected <- conversations_is_not_None;
     if truthy sid && connected then
       delete_one (BySessionId (default "" sid)) ;;
       do tok <- secrets_token_hex;
       session_set "session_id" tok ;;
       do c <- datetime_now_call;
       do u <- datetime_now_call;
       do _ <- insert_one (new_conversation tok c u);
       ret (Some ({[ "status" := JStr "success";
                     "message" := JStr "Chat cleared successfully" ]} : gmap string jval))
     else ret None)
    (λ e, ret (Some ({[ "status" := JStr "error";
                        "message" := JStr "Failed to clear chat" ]} : gmap string jval)));
  match r with
  | Some body => ret body
  | None => ret {[ "status" := JStr "success" ]}
  end.

(** [GET /test-mongodb] (lines 306-334) *)
Definition test_mongodb : M (gmap string jval) :=
  do connected <- conversations_is_not_None;
  if connected then
    try_except
      (do ts <- datetime_now_call;
       do test_id <- insert_one
         (Document None None None None None (Some true) (Some ts)
                   (Some "Test connection"));
       delete_one (ById test_id) ;;
       ret ({[ "status" := JStr "success";
               "message" := JStr "MongoDB connection is working!" ]} : gmap string jval))
      (λ e, ret {[ "status" := JStr "error";
                   "message" := JStr ("MongoDB test failed: " +:+ e) ]})
  else
    ret {[ "status" := JStr "error";
           "message" := JStr "MongoDB is not connected" ]}.

End App.

(** * Notions used by the statements *)

(** The messages stored for a session: those of the first document that
    [find_one({'session_id': sid})] returns, none when there is no such
    document or it has no [messages] field. *)
Definition stored_messages (sid : string) (c : list document) : list message :=
  match coll_find_one (BySessionId sid) c with
  | Some d => default [] (messages d)
  | None => []
  end.

Definition status_of (r : gmap string jval) : option jval := r !! "status".

Definition well_formed_status (r : gmap string jval) : Prop :=
  status_of r = Some (JStr "success") ∨ status_of r = Some (JStr "error").

(** The handle is [None], or every call on the collection raises. *)
Definition store_unavailable (svc : services) (st : state) : Prop :=
  conversations st = None ∨ ∀ n, store_fault svc n ≠ None.

(** The [updated_at] fields of the collection, document by document. *)
Definition updated_ats (st : state) : option (list (option time)) :=
  match conversations st with
  | Some c => Some (updated_at <$> c)
  | None => None
  end.

(** The body of a successful [/clear]. *)
Definition cleared : gmap string jval :=
  {[ "status" := JStr "success"; "message" := JStr "Chat cleared successfully" ]}.

(** The body of a successful [/chat]. *)
Definition success_body (ai_response : pyval) : gmap string jval :=
  {[ "response" := JVal ai_response; "status" := JStr "success" ]}.

(** The session token after [POST /clear] differs from the one before. *)
Definition clear_rotates_token (svc : services) (st : state) : Prop :=
  session (clear_chat svc st).2 !! "session_id" ≠ session st !! "session_id".

(** The update document of the user message, and of the reply. *)
Definition user_update (svc : services) (user_message : pyval) (st : state)
    : update :=
  Update (Some (Message "user" user_message (datetime_now svc (clock_reads st))))
         (Some (datetime_now svc (S (clock_reads st)))).

Definition reply_update (svc : services) (ai_response : pyval) (st : state)
    : update :=
  Update (Some (Message "assistant" ai_response
                  (datetime_now svc (clock_reads st)))) None.

(** What [GET /history] answers from a connected store that does not fail. *)
Definition history_body (sid : string) (c : list document) : gmap string jval :=
  match coll_find_one (BySessionId sid) c with
  | Some d =>
      match messages d with
      | Some l => {[ "messages" := JMessages l ]}
      | None => {[ "messages" := JMessages [] ]}
      end
  | None => {[ "messages" := JMessages [] ]}
  end.

(** The session token a request to [/chat] works under (lines 138-142): the
    one of the cookie when it is non-empty, otherwise the next value of
    [secrets.token_hex(16)]. *)
Definition chat_session_id (svc : services) (st : state) : string :=
  match session st !! "session_id" with
  | Some s => if bool_decide (s ≠ "") then s else token_hex svc (tokens_drawn st)
  | None => token_hex svc (tokens_drawn st)
  end.

(** The state in which the turn runs: the cookie is kept when it holds a
    non-empty token, otherwise a token is drawn and stored in the session. *)
Definition session_resolved (svc : services) (st : state) : state :=
  if truthy (session st !! "session_id") then st
  else with_session (<["session_id" := token_hex svc (tokens_drawn st)]> (session st))
         (with_tokens_drawn (S (tokens_drawn st)) st).

(** Lines 144-234 of [chat]: what follows the resolution of the session. *)
Definition chat_turn (svc : services) (sid : string) (user_message : pyval)
    : M (gmap string jval) :=
  save_user_message svc sid user_message ;;
  match groq_client svc with
  | None => ret groq_not_configured
  | Some g =>
      do chat_history <- fetch_chat_history svc sid;
      try_except
        (do ai_response <- completions_create g
              (prepare_messages chat_history user_message);
         save_ai_response svc sid ai_response ;;
         ret ({[ "response" := JVal ai_response;
                 "status" := JStr "success" ]} : gmap string jval))
        (λ e, ret ai_service_error)
  end.

(** * Sample services and states, for the concrete runs *)

(** Fifteen stored messages, with contents ["A"] to ["O"]. *)
Definition fifteen_messages : list message :=
  (λ i, Message (if Nat.even i then "user" else "assistant")
                (PStr (String (Ascii.ascii_of_nat (65 + i)) "")) i) <$> seq 0 15.

(** Values of [secrets.token_hex(16)] and of [datetime.now()]. *)
Definition sample_tokens (n : nat) : string :=
  match n with
  | 0 => "9f86d081884c7d659a2feaa0c55ad015"
  | 1 => "a3bf4f1b2b0b822cd15d6c15b0f00a08"
  | _ => "60303ae22b998861bce3b28f33eec1be"
  end.

Definition sample_clock (n : nat) : time := 1000 + n.

(** Store and completion service both healthy; the reply is fixed. *)
Definition greeting : list chat_message → result pyval :=
  λ _, Ok (PStr "Hello! How can I help you today?").

(** Every template renders, to a page that names it. *)
Definition sample_page : string → result string :=
  λ name, Ok ("<!DOCTYPE html><!-- " +:+ name +:+ " -->").

Definition healthy : services :=
  Services (Some greeting) (λ _, None) sample_tokens sample_clock sample_page.

(** Every call on the collection times out. *)
Definition store_down : services :=
  Services (Some greeting)
           (λ _, Some "ServerSelectionTimeoutError: timed out")
           sample_tokens sample_clock sample_page.

(** The completion call raises. *)
Definition connection_error : list chat_message → result pyval :=
  λ _, Raise "APIConnectionError: Connection error.".

Definition groq_failing : services :=
  Services (Some connection_error) (λ _, None) sample_tokens sample_clock sample_page.

(** A browser without a session cookie and an empty, connected collection. *)
Definition fresh_connected : state := State (Some []) ∅ 0 0 0 0 [].

(** The same browser when the handle [conversations] is [None]. *)
Definition fresh_disconnected : state := State None ∅ 0 0 0 0 [].

(** A browser holding the first sample token; nothing stored under it. *)
Definition cookie_only : state :=
  State (Some []) {[ "session_id" := sample_tokens 0 ]} 0 0 1 0 [].

(** The session cookie and the document that [GET /] left behind. *)
Definition after_home (svc : services) : state := (home svc fresh_connected).2.

(** The second call on the collection times out, the others succeed. *)
Definition store_hiccup_second : services :=
  Services (Some greeting)
           (λ n, match n with
                 | 1 => Some "NetworkTimeout: timed out"
                 | _ => None
                 end)
           sample_tokens sample_clock sample_page.

(** A browser holding the first sample token while the handle is [None]. *)
Definition cookie_disconnected : state :=
  State None {[ "session_id" := sample_tokens 0 ]} 0 0 1 0 [].

(** * Notions used by the further properties *)

(** Every document carries an [_id] below the next free one, and no two
    documents share one. *)
Definition ids_fresh (oid : nat) (c : list document) : Prop :=
  Forall (λ o, ∃ i, o = Some i ∧ i < oid) (_id <$> c) ∧ NoDup (_id <$> c).

Definition store_wf (st : state) : Prop :=
  match conversations st with
  | Some c => ids_fresh (next_oid st) c
  | None => True
  end.

(** The empty conversation that [GET /] and [POST /clear] store. *)
Definition empty_conversation (svc : services) (st : state) (sid : string)
    : document :=
  Document (Some (next_oid st)) (Some sid) (Some [])
           (Some (datetime_now svc (clock_reads st)))
           (Some (datetime_now svc (S (clock_reads st)))) None None None.

(** The body of [GET /history] without messages. *)
Definition no_messages : gmap string jval := {[ "messages" := JMessages [] ]}.

(** A relation between the collection (and next free [_id]) before and
    after a handler, as a relation on states. *)
Definition store_rel
    (Q : option (list document) → nat → option (list document) → nat → Prop)
    (st st' : state) : Prop :=
  Q (conversations st) (next_oid st) (conversations st') (next_oid st').

(** Every run of [m], returning or raising, relates its end state to its
    start state. *)
Definition preserves {A}
    (Q : option (list document) → nat → option (list document) → nat → Prop)
    (m : M A) : Prop :=
  ∀ st, store_rel Q st (m st).2.

(** The writes of the handlers, as conditions on [Q]: an [update_one] that
    pushes a message under [sid], an [insert_one], a [delete_one]. *)
Definition update_ok
    (Q : option (list document) → nat → option (list document) → nat → Prop)
    (sid : string) : Prop :=
  ∀ u upsert c oid,
    is_Some (push_messages u) →
    Q (Some c) oid
      (Some (coll_update_one (BySessionId sid) u upsert c oid).1)
      (coll_update_one (BySessionId sid) u upsert c oid).2.

Definition insert_ok
    (Q : option (list document) → nat → option (list document) → nat → Prop)
    : Prop :=
  ∀ d c oid, _id d = None → Q (Some c) oid (Some (c ++ [with_id oid d])) (S oid).

Definition delete_ok
    (Q : option (list document) → nat → option (list document) → nat → Prop)
    : Prop :=
  ∀ q c oid, Q (Some c) oid (Some (coll_delete_one q c)) oid.

(** The invariant [ids_fresh] as a relation: it holds after when it held
    before, and a handle is [None] after exactly when it was before. *)
Definition keeps_ids_fresh (c : option (list document)) (oid : nat)
    (c' : option (list document)) (oid' : nat) : Prop :=
  match c, c' with
  | Some l, Some l' => ids_fresh oid l → ids_fresh oid' l'
  | None, None => True
  | _, _ => False
  end.

(** The probe document of [/test-mongodb] as it is stored. *)
Definition probe_document (svc : services) (st : state) : document :=
  Document (Some (next_oid st)) None None None None (Some true)
           (Some (datetime_now svc (clock_reads st))) (Some "Test connection").

(** The collection is only extended for the session [sid]: the stored
    messages of every other session are the same after as before, and those
    of [sid] before are a prefix of those after. *)
Definition extends (sid : string) (c : option (list document)) (oid : nat)
    (c' : option (list document)) (oid' : nat) : Prop :=
  match c, c' with
  | Some l, Some l' =>
      (∀ sid', sid' ≠ sid → stored_messages sid' l' = stored_messages sid' l)
      ∧ stored_messages sid l `prefix_of` stored_messages sid l'
  | None, None => True
  | _, _ => False
  end.

(** The user message that [POST /chat] with the JSON object [o] stores. *)
Definition user_message_of (svc : services) (o : gmap string pyval)
    (st : state) : message :=
  Message "user" (default PNone (o !! "message"))
          (datetime_now svc (clock_reads st)).

(** The completion request of a turn on top of the stored messages [l]. *)
Definition context_window (l : list message) : list chat_message :=
  system_prompt :: (to_chat_message <$> slice_last 10 l).

(** The state after [GET /] and one turn of [POST /chat] with ["Hello"]. *)
Definition after_first_turn : state :=
  State (Some [Document (Some 0) (Some (sample_tokens 0))
                 (Some [Message "user" (PStr "Hello") 1002;
                        Message "assistant"
                          (PStr "Hello! How can I help you today?") 1004])
                 (Some 1000) (Some 1003) None None None])
        {[ "session_id" := sample_tokens 0 ]} 1 4 1 5
        [[system_prompt; ChatMessage "user" (PStr "Hello")]].

(** The body of a failed [/clear]. *)
Definition clear_failed : gmap string jval :=
  {[ "status" := JStr "error"; "message" := JStr "Failed to clear chat" ]}.

(** At most one document per session token. *)
Definition one_per_session (c : list document) : Prop :=
  ∀ sid,
    (length (filter (λ d, matches (BySessionId sid) d = true) c) ≤ 1)%nat.

Definition keeps_one_per_session (c : option (list document)) (oid : nat)
    (c' : option (list document)) (oid' : nat) : Prop :=
  match c, c' with
  | Some l, Some l' => one_per_session l → one_per_session l'
  | None, None => True
  | _, _ => False
  end.

(** Two browsers with one stored message each; the cookie is the first's. *)
Definition two_sessions : state :=
  State (Some [Document (Some 0) (Some (sample_tokens 0))
                 (Some [Message "user" (PStr "first") 1000])
                 (Some 1000) (Some 1001) None None None;
               Document (Some 1) (Some (sample_tokens 1))
                 (Some [Message "user" (PStr "second") 1002])
                 (Some 1002) (Some 1003) None None None])
        {[ "session_id" := sample_tokens 0 ]} 2 2 2 4 [].

(** ** Start-up (lines 45-108 of [app.py]) and [/status] *)

(** Lines 46-91; the database [chatbot_db] is the map of its collections
    by name.  The calls on the driver are numbered as they are made:
    [MongoClient(...)], [ping], [list_collection_names], then
    [create_collection] when ['conversations'] is not among the names, then
    the two [create_index]; the n-th raises when [fault n] is not [None].
    Every [except] branch sets [conversations = None].  The result is the
    documents behind the handle, or [None], and the database. *)
Definition connect_mongodb (fault : nat → option exn) (db : gmap string (list document))
    : option (list document) * gmap string (list document) :=
  match fault 0, fault 1, fault 2 with
  | None, None, None =>
      match db !! "conversations" with
      | None =>
          match fault 3 with
          | None =>
              let db' := <["conversations" := []]> db in
              match fault 4, fault 5 with
              | None, None => (Some [], db')
              | _, _ => (None, db')
              end
          | Some _ => (None, db)
          end
      | Some docs =>
          match fault 3, fault 4 with
          | None, None => (Some docs, db)
          | _, _ => (None, db)
          end
      end
  | _, _, _ => (None, db)
  end.

(** The number of driver calls a start-up without fault makes. *)
Definition connect_calls (db : gmap string (list document)) : nat :=
  match db !! "conversations" with
  | None => 6
  | Some _ => 5
  end.

(** Lines 96-108: the client, unless [GROQ_API_KEY] is unset or empty or
    [Groq(api_key=...)] raises. *)
Definition init_groq {G} (groq_api_key : option string)
    (Groq : string → result G) : option G :=
  match groq_api_key with
  | Some k =>
      if bool_decide (k ≠ "") then
        match Groq k with
        | Ok g => Some g
        | Raise _ => None
        end
      else None
  | None => None
  end.

(** [GET /status] (lines 285-296); [render] is [os.environ.get('RENDER')]. *)
Definition get_status (svc : services) (render : option string)
    : M (gmap string jval) :=
  do connected <- conversations_is_not_None;
  do sid <- session_get "session_id";
  ret {[ "mongodb" := JStr (if connected then "connected" else "disconnected");
         "groq" := JStr (match groq_client svc with
                         | Some _ => "connected"
                         | None => "disconnected"
                         end);
         "session" := JStr (default "none" sid);
         "database" := JStr "chatbot_db";
         "collection" := JStr (if connected then "conversations" else "none");
         "environment" := JStr (if truthy render then "production"
                                else "development") ]}.

(** ** The script [test_mongodb.py] *)

(** [db.create_collection(name)] of pymongo: the call raises [e] when the
    driver fails with it ([fault = Some e]), leaving the database as it was,
    and [CollectionInvalid] when the collection exists. *)
Definition create_collection (fault : option exn) (name : string)
    (db : gmap string (list document))
    : result unit * gmap string (list document) :=
  match fault with
  | Some e => (Raise e, db)
  | None =>
      match db !! name with
      | Some _ => (Raise ("collection " +:+ name +:+ " already exists"), db)
      | None => (Ok tt, <[name := []]> db)
      end
  end.

(** The lines the script prints, one per [print] call. *)
Definition script_banner : list string :=
  [ "=================================================="
  ; "🔧 TESTING MONGODB CONNECTION"
  ; "=================================================="
  ; "📌 Username: Vishal_Bhagat"
  ; "📌 Cluster: cluster0.w5azzla.mongodb.net"
  ; "==================================================" ].

Definition script_connected : list string :=
  [ "✅ SUCCESS! Connected to MongoDB Atlas!"
  ; "✅ Authentication successful!"
  ; "
📊 Your database is ready to use." ].

Definition script_created : list string :=
  [ "✅ Created database: chatbot_db"
  ; "✅ Created collection: conversations" ].

Definition script_failed (e : exn) : list string :=
  [ "❌ Connection failed: " +:+ e
  ; "
🔧 TROUBLESHOOTING STEPS:"
  ; "1️⃣ Go to MongoDB Atlas → Network Access"
  ; "2️⃣ Click 'Add IP Address' → 'Add Current IP Address' → Confirm"
  ; "3️⃣ Wait 2 minutes"
  ; "4️⃣ Run this test again" ].

(** [test_mongodb.py]: the banner, then (lines 22-44) [MongoClient(...)],
    [ping] and [create_collection], the calls 0, 1 and 2 on the driver, of
    which the n-th raises when [fault n] is not [None], with the success
    lines after the ping and after the creation; any exception goes to the
    one [except].  The result is what is printed and the database. *)
Definition test_mongodb_script (fault : nat → option exn) (db : gmap string (list document))
    : list string * gmap string (list document) :=
  match fault 0, fault 1 with
  | None, None =>
      match create_collection (fault 2) "conversations" db with
      | (Ok _, db') =>
          (script_banner ++ script_connected ++ script_created, db')
      | (Raise e, db') =>
          (script_banner ++ script_connected ++ script_failed e, db')
      end
  | Some e, _ => (script_banner ++ script_failed e, db)
  | None, Some e => (script_banner ++ script_failed e, db)
  end.

(** * Properties *)

(** ** The collection *)

Section Collection.
Implicit Types (q : query) (u : update) (d : document) (c : list document).

Lemma matches_apply_update q u d : matches q (apply_update u d) = matches q d.
Proof. by destruct q. Qed.

Lemma matches_seed q oid : matches q (seed q oid) = true.
Proof. destruct q; simpl; by apply bool_decide_eq_true. Qed.

Lemma coll_find_one_app q c c' :
  coll_find_one q (c ++ c') =
  match coll_find_one q c with
  | Some d => Some d
  | None => coll_find_one q c'
  end.
Proof.
  unfold coll_find_one. induction c as [|d c IH]; simpl; [done|].
  by destruct (matches q d).
Qed.

Lemma coll_update_first_None q f c :
  coll_update_first q f c = None ↔ coll_find_one q c = None.
Proof.
  unfold coll_find_one. induction c as [|d c IH]; simpl; [done|].
  destruct (matches q d); [done|].
  destruct (coll_update_first q f c) as [c'|].
  - split; [done|]. intros Hn. by apply IH in Hn.
  - split; [intros _; by apply IH | done].
Qed.

(** After an update that keeps the filter's fields, the first match is the
    updated first match. *)
Lemma coll_find_one_update_first q f c c' :
  (∀ d, matches q (f d) = matches q d) →
  coll_update_first q f c = Some c' →
  ∃ d, coll_find_one q c = Some d ∧ coll_find_one q c' = Some (f d).
Proof.
  intros Hf. unfold coll_find_one. revert c'.
  induction c as [|d c IH]; intros c'; simpl; [done|].
  destruct (matches q d) eqn:Hm.
  - intros [= <-]. exists d. simpl. by rewrite Hf, Hm.
  - destruct (coll_update_first q f c) as [c''|]; [|done].
    intros [= <-]. destruct (IH c'' eq_refl) as (d' & H1 & H2).
    exists d'. simpl. by rewrite Hm.
Qed.

Lemma coll_update_first_length q f c c' :
  coll_update_first q f c = Some c' → length c' = length c.
Proof.
  revert c'. induction c as [|d c IH]; intros c'; simpl; [done|].
  destruct (matches q d); [by intros [= <-]|].
  destruct (coll_update_first q f c) as [c''|]; [|done].
  intros [= <-]. simpl. by rewrite (IH c'').
Qed.

(** What [find_one] sees after [update_one(.., upsert=True)]. *)
Lemma coll_find_one_upsert q u c oid :
  coll_find_one q (coll_update_one q u true c oid).1 =
  Some (apply_update u (default (seed q oid) (coll_find_one q c))).
Proof.
  unfold coll_update_one.
  destruct (coll_update_first q (apply_update u) c) as [c'|] eqn:Hu.
  - destruct (coll_find_one_update_first q _ c c' (matches_apply_update q u) Hu)
      as (d & Hd & Hd').
    simpl. by rewrite Hd, Hd'.
  - apply coll_update_first_None in Hu. simpl.
    rewrite coll_find_one_app, Hu. simpl.
    unfold coll_find_one. simpl.
    by rewrite matches_apply_update, matches_seed.
Qed.

(** What [find_one] sees after [update_one] without upsert. *)
Lemma coll_find_one_update q u c oid :
  coll_find_one q (coll_update_one q u false c oid).1 =
  apply_update u <$> coll_find_one q c.
Proof.
  unfold coll_update_one.
  destruct (coll_update_first q (apply_update u) c) as [c'|] eqn:Hu.
  - destruct (coll_find_one_update_first q _ c c' (matches_apply_update q u) Hu)
      as (d & Hd & Hd').
    simpl. by rewrite Hd, Hd'.
  - apply coll_update_first_None in Hu. simpl. by rewrite Hu.
Qed.

End Collection.

(** ** The context window *)

Lemma slice_last_length {A} (k : nat) (l : list A) :
  0 < k → length (slice_last k l) = min k (length l).
Proof.
  intros Hk. destruct k as [|k]; [lia|]. unfold slice_last.
  rewrite length_drop. lia.
Qed.

Lemma slice_last_lookup {A} (k : nat) (l : list A) (i : nat) :
  0 < k →
  slice_last k l !! i = l !! (length l - min k (length l) + i).
Proof.
  intros Hk. destruct k as [|k]; [lia|]. unfold slice_last.
  rewrite lookup_drop. f_equal. lia.
Qed.

(** C1. With a document whose [messages] field is a non-empty history, the
    completion request is the system prompt followed by the last
    [min 10 (length history)] stored messages, oldest of them first, each
    reduced to its role and content; with 15 stored messages that is 11
    messages, the system prompt and the stored messages 5 to 14. *)
Theorem context_window_bounding (d : document) (history : list message)
    (user_message : pyval) :
  messages d = Some history →
  history ≠ [] →
  let msgs := prepare_messages (Some d) user_message in
  let n := length history in
  msgs = system_prompt :: (to_chat_message <$> drop (n - 10) history)
  ∧ length msgs = 1 + min 10 n
  ∧ (∀ i, i < min 10 n →
       msgs !! S i = to_chat_message <$> history !! (n - min 10 n + i))
  ∧ (n = 15 →
       length msgs = 11
       ∧ msgs = system_prompt :: (to_chat_message <$> drop 5 history)).
Proof.
  intros Hd _ msgs n. subst msgs. unfold prepare_messages. rewrite Hd.
  split; [done|]. split; [|split].
  - cbn [length]. by rewrite length_fmap, slice_last_length by lia.
  - intros i _. rewrite lookup_cons, list_lookup_fmap.
    by rewrite slice_last_lookup by lia.
  - intros Hn. split.
    + cbn [length]. rewrite length_fmap, slice_last_length by lia.
      fold n. by rewrite Hn.
    + unfold slice_last. fold n. by rewrite Hn.
Qed.

Lemma context_window_bounding_witness :
  let d := Document (Some 0) (Some "s") (Some fifteen_messages) None None
                    None None None in
  length (prepare_messages (Some d) (PStr "P")) = 11
  ∧ prepare_messages (Some d) (PStr "P") !! 1
    = Some (ChatMessage "assistant" (PStr "F")).
Proof.
  intros d.
  destruct (context_window_bounding d fifteen_messages (PStr "P"))
    as (Heq & _ & _ & H15); [reflexivity | discriminate |].
  destruct (H15 eq_refl) as [Hlen Hmsgs].
  split; [exact Hlen|]. rewrite Hmsgs. reflexivity.
Defined.

(** ** Running the handlers *)

Ltac unfold_app :=
  unfold chat, get_history, clear_chat, test_mongodb, home,
    save_user_message, fetch_chat_history, save_ai_response,
    completions_create, find_one, update_one, insert_one, delete_one,
    collection_call, conversations_is_not_None, session_get, session_set,
    request_json_get, datetime_now_call, secrets_token_hex,
    render_template_call, modify, try_except, bind, ret, raise in *.

(** Split on every test the handler makes that the hypotheses leave open. *)
Ltac split_cases :=
  repeat (cbn in *; first
    [ match goal with
      | H : ?x = _ |- context [match ?x with _ => _ end] => rewrite H
      end
    | case_match; simplify_eq ]); cbn in *.

(** [POST /chat] never raises past the handler, whatever the body, the
    session, the store and the completion service do. *)
Lemma chat_total svc body st :
  ∃ r st', chat svc body st = (Ok r, st') ∧ well_formed_status r.
Proof.
  destruct st as [conv sess oid calls drawn reads comps].
  unfold well_formed_status, status_of. unfold_app.
  split_cases; eexists _, _; (split; [reflexivity|]); auto.
Qed.

(** ** [/test-mongodb] *)

(** Without faults the probe document is inserted and then deleted. *)
Lemma test_mongodb_success svc st c :
  conversations st = Some c →
  store_fault svc (store_calls st) = None →
  store_fault svc (S (store_calls st)) = None →
  let probe := Document (Some (next_oid st)) None None None None (Some true)
                 (Some (datetime_now svc (clock_reads st)))
                 (Some "Test connection") in
  ∃ st', test_mongodb svc st =
           (Ok {[ "status" := JStr "success";
                  "message" := JStr "MongoDB connection is working!" ]}, st')
         ∧ conversations st' =
             Some (coll_delete_one (ById (next_oid st)) (c ++ [probe])).
Proof.
  intros Hc H0 H1 probe. subst probe.
  destruct st as [conv sess oid calls drawn reads comps].
  cbn in *. subst conv. unfold_app. cbn. rewrite H0. cbn. rewrite H1. cbn.
  by eexists.
Qed.



(** ** [/chat]: failures of the completion call *)

(** C8. Whatever the request, the session and the store: [POST /chat]
    returns a body, no exception leaves the handler.  A body that is not a
    JSON object is answered by [something_went_wrong] without a call of the
    completion service.  On a JSON object the service is called exactly once,
    with some [msgs]: when that call raises [e], the body is the fixed
    [ai_service_error], status [error], in which [e] does not occur; when it
    returns [v], the body is the reply with status [success]. *)
Theorem completion_errors_never_leak svc body st g :
  groq_client svc = Some g →
  ∃ r st', chat svc body st = (Ok r, st')
    ∧ (((∀ o, body ≠ JsonObject o)
        ∧ completions st' = completions st
        ∧ r = something_went_wrong)
       ∨ ((∃ o, body = JsonObject o)
          ∧ ∃ msgs, completions st' = completions st ++ [msgs]
              ∧ (∀ v, g msgs = Ok v → r = success_body v)
              ∧ (∀ e, g msgs = Raise e →
                   r = ai_service_error
                   ∧ r !! "response" =
                       Some (JStr "I encountered an error with the AI service. Please try again.")
                   ∧ status_of r = Some (JStr "error")))).
Proof.
  intros Hg. destruct body as [|o|].
  - exists something_went_wrong, st. split; [reflexivity|]. left.
    by repeat split.
  - destruct st as [conv sess oid calls drawn reads comps].
    unfold success_body. unfold_app. rewrite Hg.
    split_cases; eexists _, _; (split; [reflexivity|]); right;
      (split; [by eexists|]); cbn; eexists; (split; [reflexivity|]);
      split; intros; first [congruence | done].
  - exists something_went_wrong, st. split; [reflexivity|]. left.
    by repeat split.
Qed.

(** The completion call raises on a first message: the call is made, once,
    and the apology comes back. *)
Lemma completion_errors_never_leak_witness :
  ∃ st',
    chat groq_failing (JsonObject {[ "message" := PStr "Hello" ]})
         fresh_connected
    = (Ok ai_service_error, st')
    ∧ length (completions st') = 1.
Proof.
  destruct (completion_errors_never_leak groq_failing
              (JsonObject {[ "message" := PStr "Hello" ]}) fresh_connected
              connection_error eq_refl)
    as (r & st' & Hrun & [(Hbody & _) | (_ & msgs & Htrace & _ & Hraise)]).
  - by destruct (Hbody {[ "message" := PStr "Hello" ]}).
  - destruct (Hraise "APIConnectionError: Connection error." eq_refl)
      as (-> & _).
    exists st'. split; [exact Hrun|]. by rewrite Htrace.
Defined.

(** The run of the witness, with the request that was sent. *)
Example chat_groq_failing :
  (chat groq_failing (JsonObject {[ "message" := PStr "Hello" ]})
        fresh_connected).1 = Ok ai_service_error
  ∧ completions (chat groq_failing (JsonObject {[ "message" := PStr "Hello" ]})
                      fresh_connected).2
    = [[system_prompt; ChatMessage "user" (PStr "Hello")]].
Proof. split; reflexivity. Qed.

(** ** Degraded mode: the store is unavailable *)

Ltac no_store_call Hdown :=
  match goal with
  | H : store_fault _ _ = None |- _ => by destruct (Hdown _ H)
  end.

(** C7. With the store unavailable, [POST /chat] returns a body whose status
    is [success] or [error] and persists nothing; the completion call is made
    exactly when the client is configured and the body is a JSON object, and
    then with the system prompt and the current user message only; and
    [GET /history] returns [{"messages": []}]. *)
Theorem graceful_degradation svc body st :
  store_unavailable svc st →
  (∃ r st', chat svc body st = (Ok r, st')
     ∧ well_formed_status r
     ∧ conversations st' = conversations st
     ∧ (∀ g o, groq_client svc = Some g → body = JsonObject o →
          completions st' = completions st ++
            [[system_prompt; ChatMessage "user" (default PNone (o !! "message"))]])
     ∧ (groq_client svc = None ∨ (∀ o, body ≠ JsonObject o) →
          completions st' = completions st))
  ∧ (∃ st', get_history svc st = (Ok {[ "messages" := JMessages [] ]}, st')).
Proof.
  intros Hdown. destruct st as [conv sess oid calls drawn reads comps].
  unfold well_formed_status, status_of.
  destruct Hdown as [Hnone|Hdown]; [cbn in Hnone; subst conv|]; split.
  - unfold_app. split_cases; eexists _, _; (split; [reflexivity|]);
      (split; [auto|]); (split; [reflexivity|]);
      (split; [intros; by simplify_eq | intros [?|Hb]; by try destruct (Hb _ eq_refl)]).
  - unfold_app. split_cases; by eexists.
  - unfold_app. split_cases; try no_store_call Hdown;
      eexists _, _; (split; [reflexivity|]);
      (split; [auto|]); (split; [reflexivity|]);
      (split; [intros; by simplify_eq | intros [?|Hb]; by try destruct (Hb _ eq_refl)]).
  - unfold_app. split_cases; try no_store_call Hdown; by eexists.
Qed.

Lemma graceful_degradation_witness :
  (∃ r st', chat store_down (JsonObject {[ "message" := PStr "Hello" ]})
                 fresh_connected = (Ok r, st')
     ∧ well_formed_status r
     ∧ conversations st' = conversations fresh_connected
     ∧ (∀ g o, groq_client store_down = Some g →
          JsonObject {[ "message" := PStr "Hello" ]} = JsonObject o →
          completions st' = completions fresh_connected ++
            [[system_prompt; ChatMessage "user" (default PNone (o !! "message"))]])
     ∧ (groq_client store_down = None
        ∨ (∀ o, JsonObject {[ "message" := PStr "Hello" ]} ≠ JsonObject o) →
          completions st' = completions fresh_connected))
  ∧ (∃ st', get_history store_down fresh_connected
              = (Ok {[ "messages" := JMessages [] ]}, st')).
Proof.
  apply (graceful_degradation store_down
           (JsonObject {[ "message" := PStr "Hello" ]}) fresh_connected).
  right. intros n. discriminate.
Defined.

(** The two degraded runs: handle [None], and every store call raising. *)
Example chat_disconnected :
  (chat healthy (JsonObject {[ "message" := PStr "Hello" ]})
        fresh_disconnected).1
  = Ok {[ "response" := JStr "Hello! How can I help you today?";
          "status" := JStr "success" ]}
  ∧ completions (chat healthy (JsonObject {[ "message" := PStr "Hello" ]})
                      fresh_disconnected).2
    = [[system_prompt; ChatMessage "user" (PStr "Hello")]].
Proof. split; reflexivity. Qed.

Example chat_store_down :
  (chat store_down (JsonObject {[ "message" := PStr "Hello" ]})
        fresh_connected).1
  = Ok {[ "response" := JStr "Hello! How can I help you today?";
          "status" := JStr "success" ]}
  ∧ conversations (chat store_down (JsonObject {[ "message" := PStr "Hello" ]})
                        fresh_connected).2 = Some [].
Proof. split; reflexivity. Qed.

(** ** Appending and fetching *)

(** C6. On a connected store whose next two calls succeed, saving the user
    message under the session token [t] (the [update_one] with upsert of
    lines 145-158) and then fetching as [GET /history] does returns the
    previously stored messages followed by the new message: a non-empty list
    whose last element is that message, whether or not a document for [t]
    existed. *)
Theorem append_fetch_round_trip svc st c t user_message :
  conversations st = Some c →
  session st !! "session_id" = Some t →
  t ≠ "" →
  store_fault svc (store_calls st) = None →
  store_fault svc (S (store_calls st)) = None →
  let m := Message "user" user_message (datetime_now svc (clock_reads st)) in
  let l := stored_messages t c ++ [m] in
  ∃ st1 st2,
    save_user_message svc t user_message st = (Ok tt, st1)
    ∧ get_history svc st1 = (Ok {[ "messages" := JMessages l ]}, st2)
    ∧ last l = Some m
    ∧ l ≠ [].
Proof.
  intros Hc Hs Ht H0 H1 m l.
  destruct st as [conv sess oid calls drawn reads comps]. cbn in *. subst conv.
  unfold_app. cbn. rewrite H0. cbn.
  pose proof (coll_find_one_upsert (BySessionId t)
    (Update (Some m) (Some (datetime_now svc (S reads)))) c oid) as Hfind.
  fold m.
  destruct (coll_update_one _ _ true c oid) as [c' oid'] eqn:Hu. cbn in *.
  eexists _, _. split; [reflexivity|]. cbn. rewrite Hs. cbn.
  rewrite (bool_decide_true _ Ht). cbn. rewrite H1. cbn.
  unfold coll_find_one in *. rewrite Hfind. cbn.
  assert (l ≠ []) as Hne by (subst l; by destruct (stored_messages t c)).
  assert (last l = Some m) as Hlast by apply last_snoc.
  subst l. unfold stored_messages, coll_find_one in *.
  by destruct (find (matches (BySessionId t)) c).
Qed.

Lemma append_fetch_round_trip_witness :
  let t := sample_tokens 0 in
  let m := Message "user" (PStr "Hello") 1000 in
  ∃ st1 st2,
    save_user_message healthy t (PStr "Hello") cookie_only = (Ok tt, st1)
    ∧ get_history healthy st1 = (Ok {[ "messages" := JMessages [m] ]}, st2)
    ∧ last [m] = Some m
    ∧ [m] ≠ [].
Proof.
  apply (append_fetch_round_trip healthy cookie_only [] (sample_tokens 0)
           (PStr "Hello")).
  - reflexivity.
  - reflexivity.
  - discriminate.
  - reflexivity.
  - reflexivity.
Defined.

(** ** What an append changes *)

Lemma coll_update_first_fmap {B} q (f : document → document)
    (p : document → B) (c c' : list document) :
  (∀ d, p (f d) = p d) →
  coll_update_first q f c = Some c' → p <$> c' = p <$> c.
Proof.
  intros Hp. revert c'. induction c as [|d c IH]; intros c'; simpl; [done|].
  destruct (matches q d).
  - intros [= <-]. by rewrite !fmap_cons, Hp.
  - destruct (coll_update_first q f c) as [c''|]; [|done].
    intros [= <-]. by rewrite !fmap_cons, (IH c'').
Qed.

(** An [update_one] without [$set] and without upsert leaves the
    [updated_at] of every document as it was. *)
Lemma coll_update_one_push_only q m c oid :
  updated_at <$> (coll_update_one q (Update (Some m) None) false c oid).1
  = updated_at <$> c.
Proof.
  unfold coll_update_one.
  destruct (coll_update_first _ _ c) as [c'|] eqn:Hu; [|done].
  simpl. eapply coll_update_first_fmap; [|exact Hu]. done.
Qed.

(** The update of the user message (lines 147-158) on a document: the
    message is appended, [updated_at] is set, the other fields stay. *)
Lemma user_update_effect m ua d :
  let d' := apply_update (Update (Some m) (Some ua)) d in
  messages d' = Some (default [] (messages d) ++ [m])
  ∧ updated_at d' = Some ua
  ∧ _id d' = _id d ∧ session_id d' = session_id d
  ∧ created_at d' = created_at d ∧ test d' = test d
  ∧ test_timestamp d' = test_timestamp d ∧ test_message d' = test_message d.
Proof. done. Qed.

(** C5. The append of the assistant reply (lines 214-225) does not set
    [updated_at]: [save_ai_response] leaves the [updated_at] of every
    document as it was.  In the run of [POST /chat] with ["Hello"] after
    [GET /], the conversation ends with [updated_at] 1003, the value the
    append of the user message set, while the reply is stamped 1004. *)
Theorem assistant_append_keeps_updated_at :
  (∀ svc sid ai_response st,
     updated_ats (save_ai_response svc sid ai_response st).2 = updated_ats st)
  ∧ conversations
      (chat healthy (JsonObject {[ "message" := PStr "Hello" ]})
            (after_home healthy)).2
    = Some [Document (Some 0) (Some (sample_tokens 0))
              (Some [Message "user" (PStr "Hello") 1002;
                     Message "assistant"
                       (PStr "Hello! How can I help you today?") 1004])
              (Some 1000) (Some 1003) None None None].
Proof.
  split; [|reflexivity].
  intros svc sid ai st. destruct st as [conv sess oid calls drawn reads comps].
  unfold updated_ats. unfold_app. cbn. destruct conv as [c|]; cbn; [|done].
  destruct (store_fault svc calls); cbn; [done|].
  pose proof (coll_update_one_push_only (BySessionId sid)
    (Message "assistant" ai (datetime_now svc reads)) c oid) as Hu.
  destruct (coll_update_one _ _ false c oid) as [c' oid'].
  cbn in *. by rewrite Hu.
Qed.

(** ** The fallback of the context window *)

(** Without a document the request is the system prompt and the current
    user message. *)
Lemma prepare_messages_no_document user_message :
  prepare_messages None user_message
  = [system_prompt; ChatMessage "user" user_message].
Proof. reflexivity. Qed.

(** C2. For the document that [GET /] and [POST /clear] create, whose
    [messages] is the empty list, the completion request is the system prompt
    alone: the current user message is not added.  In the run of [GET /]
    followed by [POST /chat] with ["hi"] where the save of the user message
    times out, the completion service is called with the system prompt only
    and the status is [success]. *)
Theorem empty_history_sends_system_prompt_only :
  (∀ oid sid c u user_message,
     prepare_messages (Some (with_id oid (new_conversation sid c u))) user_message
     = [system_prompt])
  ∧ (let run := chat store_hiccup_second (JsonObject {[ "message" := PStr "hi" ]})
                     (after_home store_hiccup_second) in
     completions run.2 = [[system_prompt]]
     ∧ run.1 = Ok {[ "response" := JStr "Hello! How can I help you today?";
                     "status" := JStr "success" ]}).
Proof. split; [reflexivity|]. split; reflexivity. Qed.

(** ** [/clear] *)

Lemma coll_find_one_no_match q (c : list document) :
  filter (λ d, matches q d = true) c = [] → coll_find_one q c = None.
Proof.
  unfold coll_find_one. induction c as [|d c IH]; simpl; [done|].
  rewrite filter_cons. case_decide as Hm; [done|].
  apply not_true_is_false in Hm. rewrite Hm. exact IH.
Qed.

(** When at most one document matches, none matches after [delete_one]. *)
Lemma coll_delete_one_single q (c : list document) :
  (length (filter (λ d, matches q d = true) c) ≤ 1)%nat →
  coll_find_one q (coll_delete_one q c) = None.
Proof.
  induction c as [|d c IH]; simpl; [done|].
  rewrite filter_cons. case_decide as Hm.
  - rewrite Hm. simpl. intros Hlen. apply coll_find_one_no_match.
    apply length_zero_iff_nil. lia.
  - apply not_true_is_false in Hm. rewrite Hm. intros Hlen.
    unfold coll_find_one in *. simpl. rewrite Hm. by apply IH.
Qed.

(** [delete_one] does not bring about a match for any filter. *)
Lemma coll_find_one_delete_None q q' (c : list document) :
  coll_find_one q c = None → coll_find_one q (coll_delete_one q' c) = None.
Proof.
  unfold coll_find_one. induction c as [|d c IH]; simpl; [done|].
  destruct (matches q d) eqn:Hm; [done|]. intros Hc.
  destruct (matches q' d); [done|]. simpl. rewrite Hm. by apply IH.
Qed.

(** C4 (amended). With a connected handle and a non-empty session token
    [old], when the two calls [/clear] makes on the collection succeed,
    [POST /clear] answers [cleared], deletes the first conversation stored
    under [old], puts the next value [new] of [secrets.token_hex(16)] in the
    session (a token different from the prior one whenever [new ≠ old]) and
    inserts an empty conversation under [new]; no conversation of [old] is
    left when it had at most one, and the empty one is what a fetch under
    [new] finds when [new] was not in use.  With the handle [None] or without
    a session token, [POST /clear] answers [{"status": "success"}] and
    changes nothing, the token included, whatever the store would do: no
    call is made on the collection. *)
Theorem clear_chat_rotation svc st :
  (∀ c old,
     conversations st = Some c →
     session st !! "session_id" = Some old →
     old ≠ "" →
     store_fault svc (store_calls st) = None →
     store_fault svc (S (store_calls st)) = None →
     let new := token_hex svc (tokens_drawn st) in
     let created := Document (Some (next_oid st)) (Some new) (Some [])
                      (Some (datetime_now svc (clock_reads st)))
                      (Some (datetime_now svc (S (clock_reads st))))
                      None None None in
     ∃ st', clear_chat svc st = (Ok cleared, st')
       ∧ session st' !! "session_id" = Some new
       ∧ (new ≠ old → session st' !! "session_id" ≠ session st !! "session_id")
       ∧ conversations st' = Some (coll_delete_one (BySessionId old) c ++ [created])
       ∧ (new ≠ old → (length (filter (λ d, matches (BySessionId old) d = true) c) ≤ 1)%nat →
            ∀ c', conversations st' = Some c' → coll_find_one (BySessionId old) c' = None)
       ∧ (coll_find_one (BySessionId new) c = None →
            ∀ c', conversations st' = Some c' → stored_messages new c' = []
               ∧ coll_find_one (BySessionId new) c' = Some created))
  ∧ (conversations st = None ∨ truthy (session st !! "session_id") = false →
       clear_chat svc st = (Ok {[ "status" := JStr "success" ]}, st)).
Proof.
  destruct st as [conv sess oid calls drawn reads comps]. split.
  - intros c old Hc Hs Hold H0 H1 new created.
    cbn in Hc, Hs, H0, H1, new, created.
    subst conv. unfold_app. cbn. rewrite Hs. cbn.
    rewrite (bool_decide_true _ Hold). cbn. rewrite H0. cbn. rewrite H1. cbn.
    eexists. split; [reflexivity|]. cbn. fold new.
    change (with_id oid (new_conversation new _ _)) with created.
    rewrite lookup_insert_eq.
    split; [done|]. split; [congruence|]. split; [done|]. split.
    + intros Hne Hlen c' [= <-].
      rewrite coll_find_one_app, coll_delete_one_single by done.
      unfold coll_find_one. simpl. rewrite bool_decide_false; [done|].
      congruence.
    + intros Hfresh c' [= <-]. unfold stored_messages.
      rewrite coll_find_one_app, coll_find_one_delete_None by done.
      unfold coll_find_one. simpl. by rewrite bool_decide_true.
  - intros Hoff. unfold_app. cbn.
    destruct Hoff as [Hnone|Hfalsy]; cbn in Hnone || cbn in Hfalsy.
    + subst conv. by destruct (truthy (sess !! "session_id")).
    + by rewrite Hfalsy.
Qed.

(** C4 as stated fails: with the handle [None] the session token after
    [POST /clear] is the one before. *)
Lemma clear_keeps_token_when_disconnected :
  ¬ clear_rotates_token healthy cookie_disconnected.
Proof. intros H. by apply H. Qed.

Lemma clear_chat_rotation_witness :
  (∃ st', clear_chat healthy (after_home healthy) = (Ok cleared, st')
     ∧ session st' !! "session_id" = Some (sample_tokens 1)
     ∧ conversations st' =
         Some [Document (Some 1) (Some (sample_tokens 1)) (Some [])
                 (Some 1002) (Some 1003) None None None])
  ∧ clear_chat store_down cookie_disconnected
    = (Ok {[ "status" := JStr "success" ]}, cookie_disconnected).
Proof.
  split.
  - destruct (clear_chat_rotation healthy (after_home healthy)) as [Hrot _].
    destruct (Hrot [Document (Some 0) (Some (sample_tokens 0)) (Some [])
                      (Some 1000) (Some 1001) None None None]
                   (sample_tokens 0) eq_refl eq_refl)
      as (st' & Hrun & Hsess & _ & Hconv & _);
      [discriminate | reflexivity | reflexivity |].
    exists st'. split; [exact Hrun|]. split; [exact Hsess|]. exact Hconv.
  - destruct (clear_chat_rotation store_down cookie_disconnected) as [_ Hoff].
    apply Hoff. left. reflexivity.
Defined.

(** ** The blocks of [/chat], step by step *)

Section Steps.
Context (svc : services).

Lemma run_save_user_message sid user_message st c :
  conversations st = Some c →
  store_fault svc (store_calls st) = None →
  save_user_message svc sid user_message st
  = (Ok tt,
     State (Some (coll_update_one (BySessionId sid) (user_update svc user_message st)
                    true c (next_oid st)).1)
           (session st)
           (coll_update_one (BySessionId sid) (user_update svc user_message st)
              true c (next_oid st)).2
           (S (store_calls st)) (tokens_drawn st) (S (S (clock_reads st)))
           (completions st)).
Proof.
  intros Hc H0. unfold user_update.
  destruct st as [conv sess oid calls drawn reads comps]. cbn in *. subst conv.
  unfold_app. cbn. rewrite H0. cbn.
  by destruct (coll_update_one _ _ true c oid).
Qed.

Lemma run_fetch_chat_history sid st c :
  conversations st = Some c →
  store_fault svc (store_calls st) = None →
  fetch_chat_history svc sid st
  = (Ok (coll_find_one (BySessionId sid) c),
     State (Some c) (session st) (next_oid st) (S (store_calls st))
           (tokens_drawn st) (clock_reads st) (completions st)).
Proof.
  intros Hc H0.
  destruct st as [conv sess oid calls drawn reads comps]. cbn in *. subst conv.
  unfold_app. cbn. by rewrite H0.
Qed.

Lemma run_save_ai_response sid ai_response st c :
  conversations st = Some c →
  store_fault svc (store_calls st) = None →
  save_ai_response svc sid ai_response st
  = (Ok tt,
     State (Some (coll_update_one (BySessionId sid) (reply_update svc ai_response st)
                    false c (next_oid st)).1)
           (session st)
           (coll_update_one (BySessionId sid) (reply_update svc ai_response st)
              false c (next_oid st)).2
           (S (store_calls st)) (tokens_drawn st) (S (clock_reads st))
           (completions st)).
Proof.
  intros Hc H0. unfold reply_update.
  destruct st as [conv sess oid calls drawn reads comps]. cbn in *. subst conv.
  unfold_app. cbn. rewrite H0. cbn.
  by destruct (coll_update_one _ _ false c oid).
Qed.

Lemma run_get_history st c t :
  conversations st = Some c →
  session st !! "session_id" = Some t →
  t ≠ "" →
  store_fault svc (store_calls st) = None →
  get_history svc st
  = (Ok (history_body t c),
     State (Some c) (session st) (next_oid st) (S (store_calls st))
           (tokens_drawn st) (clock_reads st) (completions st)).
Proof.
  intros Hc Hs Ht H0.
  destruct st as [conv sess oid calls drawn reads comps]. cbn in *. subst conv.
  unfold history_body. unfold_app. cbn. rewrite Hs. cbn.
  rewrite (bool_decide_true _ Ht). cbn. rewrite H0. cbn.
  destruct (coll_find_one (BySessionId t) c) as [d|]; [|done].
  by destruct (messages d).
Qed.

End Steps.

(** ** The scenario: one chat turn, then the history *)

(** The first turn of a conversation: nothing stored before the append. *)
Lemma prepare_messages_first_turn sid c oid user_message ts ua :
  stored_messages sid c = [] →
  prepare_messages
    (Some (apply_update (Update (Some (Message "user" user_message ts)) (Some ua))
             (default (seed (BySessionId sid) oid)
                      (coll_find_one (BySessionId sid) c))))
    user_message
  = [system_prompt; ChatMessage "user" user_message].
Proof.
  unfold stored_messages, prepare_messages.
  destruct (coll_find_one (BySessionId sid) c) as [d|]; simpl; [|done].
  by intros ->.
Qed.

(** [chat] on a JSON object: the turn under the resolved session, any
    exception it lets through answered by [something_went_wrong]. *)
Lemma chat_object svc o st :
  chat svc (JsonObject o) st =
  match chat_turn svc (chat_session_id svc st) (default PNone (o !! "message"))
                  (session_resolved svc st) with
  | (Ok r, st') => (Ok r, st')
  | (Raise e, st') => (Ok something_went_wrong, st')
  end.
Proof.
  unfold chat, chat_turn, chat_session_id, session_resolved, truthy.
  unfold try_except at 1. unfold bind at 1, request_json_get, ret at 1.
  unfold bind at 1, session_get. unfold bind at 1.
  destruct (session st !! "session_id") as [s|]; simpl.
  - by destruct (bool_decide (s ≠ "")).
  - done.
Qed.

Lemma session_resolved_conversations svc st :
  conversations (session_resolved svc st) = conversations st.
Proof. unfold session_resolved. by destruct (truthy _). Qed.

Lemma session_resolved_lookup svc st :
  chat_session_id svc st ≠ "" →
  session (session_resolved svc st) !! "session_id"
  = Some (chat_session_id svc st).
Proof.
  unfold session_resolved, chat_session_id, truthy.
  destruct (session st !! "session_id") as [s|] eqn:Hs.
  - destruct (bool_decide (s ≠ "")); [done|].
    intros _. cbn. apply lookup_insert_eq.
  - intros _. cbn. apply lookup_insert_eq.
Qed.

(** One turn on a healthy store when nothing was stored for [sid]. *)
Lemma chat_first_turn svc st c g sid reply :
  conversations st = Some c →
  groq_client svc = Some g →
  (∀ n, store_fault svc n = None) →
  stored_messages sid c = [] →
  g [system_prompt; ChatMessage "user" (PStr "Hello")] = Ok (PStr reply) →
  ∃ c2 oid2,
  chat_turn svc sid (PStr "Hello") st
  = (Ok {[ "response" := JStr reply; "status" := JStr "success" ]},
     State (Some c2) (session st) oid2 (S (S (S (store_calls st))))
           (tokens_drawn st)
           (S (S (S (clock_reads st))))
           (completions st ++ [[system_prompt; ChatMessage "user" (PStr "Hello")]]))
  ∧ history_body sid c2
    = {[ "messages" :=
           JMessages [Message "user" (PStr "Hello") (datetime_now svc (clock_reads st));
                      Message "assistant" (PStr reply)
                        (datetime_now svc (S (S (clock_reads st))))] ]}.
Proof.
  intros Hc Hg Hok Hnew Hreply.
  destruct st as [conv sess oid calls drawn reads comps]. cbn in Hc. subst conv.
  unfold chat_turn. rewrite Hg. unfold bind at 1.
  erewrite run_save_user_message; [|reflexivity|apply Hok].
  unfold user_update.
  cbn [conversations session next_oid store_calls tokens_drawn clock_reads
       completions].
  pose proof (coll_find_one_upsert (BySessionId sid)
    (Update (Some (Message "user" (PStr "Hello") (datetime_now svc reads)))
            (Some (datetime_now svc (S reads)))) c oid) as Hfind1.
  destruct (coll_update_one _ _ true c oid) as [c1 oid1]. cbn [fst snd] in *.
  unfold bind at 1.
  erewrite run_fetch_chat_history; [|reflexivity|apply Hok].
  cbn [conversations session next_oid store_calls tokens_drawn clock_reads
       completions].
  rewrite Hfind1, prepare_messages_first_turn by done.
  unfold try_except, bind at 1, completions_create.
  cbn [completions with_completions conversations session next_oid store_calls
       tokens_drawn clock_reads].
  rewrite Hreply. unfold bind at 1.
  erewrite run_save_ai_response; [|reflexivity|apply Hok].
  unfold reply_update.
  cbn [conversations session next_oid store_calls tokens_drawn clock_reads
       completions with_completions].
  pose proof (coll_find_one_update (BySessionId sid)
    (Update (Some (Message "assistant" (PStr reply)
                     (datetime_now svc (S (S reads))))) None) c1 oid1) as Hfind2.
  destruct (coll_update_one _ _ false c1 oid1) as [c2 oid2]. cbn [fst snd] in *.
  exists c2, oid2. split; [reflexivity|]. clear Hreply.
  unfold history_body. rewrite Hfind2, Hfind1. cbn.
  unfold stored_messages in Hnew.
  destruct (coll_find_one (BySessionId sid) c) as [d|]; cbn; [|done].
  cbn in Hnew. by rewrite Hnew.
Qed.

(** C3. Store connected and not failing, completion service answering the
    request [system prompt, user "Hello"] with the non-empty string [reply],
    and a fresh session: the token the request works under (the cookie's, or
    a newly drawn one) is non-empty and has no stored messages.  Then
    [POST /chat] with [{"message": "Hello"}] answers [reply] with status
    [success], and the [GET /history] that follows returns exactly two
    messages: role [user] with content ["Hello"], then role [assistant] with
    content [reply]. *)
Theorem chat_then_history svc st c g reply :
  conversations st = Some c →
  groq_client svc = Some g →
  (∀ n, store_fault svc n = None) →
  chat_session_id svc st ≠ "" →
  stored_messages (chat_session_id svc st) c = [] →
  g [system_prompt; ChatMessage "user" (PStr "Hello")] = Ok (PStr reply) →
  reply ≠ "" →
  ∃ st1 st2 ts1 ts2,
    chat svc (JsonObject {[ "message" := PStr "Hello" ]}) st
      = (Ok {[ "response" := JStr reply; "status" := JStr "success" ]}, st1)
    ∧ get_history svc st1
      = (Ok {[ "messages" := JMessages [Message "user" (PStr "Hello") ts1;
                                        Message "assistant" (PStr reply) ts2] ]},
         st2).
Proof.
  intros Hc Hg Hok Hsid Hnew Hreply _.
  rewrite chat_object, lookup_singleton_eq. cbn [default from_option id].
  destruct (chat_first_turn svc (session_resolved svc st) c g
              (chat_session_id svc st) reply) as (c2 & oid2 & Hrun & Hhist);
    [by rewrite session_resolved_conversations|done..|].
  rewrite Hrun. eexists _, _, _, _. split; [reflexivity|].
  erewrite run_get_history;
    [|reflexivity|by apply session_resolved_lookup|done|apply Hok].
  by rewrite Hhist.
Qed.

Lemma chat_then_history_witness :
  ∃ st1 st2 ts1 ts2,
    chat healthy (JsonObject {[ "message" := PStr "Hello" ]}) fresh_connected
      = (Ok {[ "response" := JStr "Hello! How can I help you today?";
               "status" := JStr "success" ]}, st1)
    ∧ get_history healthy st1
      = (Ok {[ "messages" :=
                 JMessages [Message "user" (PStr "Hello") ts1;
                            Message "assistant"
                              (PStr "Hello! How can I help you today?") ts2] ]},
         st2).
Proof.
  apply (chat_then_history healthy fresh_connected [] greeting
           "Hello! How can I help you today?").
  - reflexivity.
  - reflexivity.
  - intros n. reflexivity.
  - discriminate.
  - reflexivity.
  - reflexivity.
  - discriminate.
Defined.

(** The same scenario after [GET /]: the cookie and an empty conversation
    exist already. *)
Example chat_then_history_after_home :
  let turn := chat healthy (JsonObject {[ "message" := PStr "Hello" ]})
                   (after_home healthy) in
  turn.1 = Ok {[ "response" := JStr "Hello! How can I help you today?";
                 "status" := JStr "success" ]}
  ∧ (get_history healthy turn.2).1
    = Ok {[ "messages" :=
              JMessages [Message "user" (PStr "Hello") 1002;
                         Message "assistant"
                           (PStr "Hello! How can I help you today?") 1004] ]}.
Proof. split; reflexivity. Qed.

(** ** Requests without a message *)

Lemma stored_messages_upsert sid m ua c oid :
  stored_messages sid
    (coll_update_one (BySessionId sid) (Update (Some m) ua) true c oid).1
  = stored_messages sid c ++ [m].
Proof.
  unfold stored_messages. rewrite coll_find_one_upsert.
  by destruct (coll_find_one (BySessionId sid) c).
Qed.

Lemma stored_messages_update sid m ua c oid :
  stored_messages sid c ≠ [] →
  stored_messages sid
    (coll_update_one (BySessionId sid) (Update (Some m) ua) false c oid).1
  = stored_messages sid c ++ [m].
Proof.
  unfold stored_messages. rewrite coll_find_one_update.
  by destruct (coll_find_one (BySessionId sid) c).
Qed.

(** The newest stored message is the last one of the completion request. *)
Lemma prepare_messages_last d l m user_message :
  messages d = Some (l ++ [m]) →
  last (prepare_messages (Some d) user_message) = Some (to_chat_message m).
Proof.
  intros Hd. unfold prepare_messages, slice_last. rewrite Hd.
  rewrite length_app. cbn [length].
  rewrite drop_app_le by lia.
  rewrite fmap_app, app_comm_cons. apply last_snoc.
Qed.

Lemma prepare_messages_after_upsert sid m ua c oid user_message :
  last (prepare_messages
          (coll_find_one (BySessionId sid)
             (coll_update_one (BySessionId sid) (Update (Some m) ua) true c oid).1)
          user_message)
  = Some (to_chat_message m).
Proof.
  rewrite coll_find_one_upsert.
  by apply (prepare_messages_last _
              (default [] (messages (default (seed (BySessionId sid) oid)
                                       (coll_find_one (BySessionId sid) c))))).
Qed.

Lemma chat_turn_outcome svc sid user_message st :
  ∃ r st', chat_turn svc sid user_message st = (Ok r, st')
    ∧ (groq_client svc = None →
         r = groq_not_configured ∧ completions st' = completions st)
    ∧ (∀ g, groq_client svc = Some g →
         ∃ msgs, completions st' = completions st ++ [msgs]
           ∧ (∀ e, g msgs = Raise e → r = ai_service_error)
           ∧ (∀ v, g msgs = Ok v → r = success_body v)
           ∧ (conversations st = None ∨ store_fault svc (store_calls st) = None →
                last msgs = Some (ChatMessage "user" user_message)))
    ∧ (∀ c, conversations st = Some c →
         store_fault svc (store_calls st) = None →
         ∃ c' rest, conversations st' = Some c'
           ∧ stored_messages sid c'
             = stored_messages sid c ++
               Message "user" user_message (datetime_now svc (clock_reads st))
               :: rest).
Proof.
  destruct st as [conv sess oid calls drawn reads comps].
  unfold chat_turn, success_body.
  destruct conv as [c|]; [destruct (store_fault svc calls) as [e0|] eqn:H0|].
  - (* the save of the user message raises *)
    unfold_app. cbn. rewrite H0. cbn.
    destruct (groq_client svc) as [g|]; cbn.
    + split_cases; eexists _, _; (split; [reflexivity|]);
        (split; [done|]); (split; [|done]);
        intros ? [= <-]; eexists; (split; [reflexivity|]);
        (split; [congruence|]); (split; [congruence|]);
        intros [?|?]; done.
    + eexists _, _. split; [reflexivity|]. by repeat split.
  - (* the save of the user message succeeds *)
    unfold_app. cbn. rewrite H0. cbn.
    pose proof (stored_messages_upsert sid
      (Message "user" user_message (datetime_now svc reads))
      (Some (datetime_now svc (S reads))) c oid) as Hst1.
    pose proof (prepare_messages_after_upsert sid
      (Message "user" user_message (datetime_now svc reads))
      (Some (datetime_now svc (S reads))) c oid user_message) as Hlast1.
    destruct (coll_update_one _ _ true c oid) as [c1 oid1]. cbn [fst snd] in *.
    cbn.
    destruct (groq_client svc) as [g|]; cbn.
    + assert (stored_messages sid c1 ≠ []) as Hne1
        by (rewrite Hst1; by destruct (stored_messages sid c)).
      destruct (store_fault svc (S calls)) as [e1|] eqn:H1; cbn;
        (destruct (g (prepare_messages _ _)) as [v|e] eqn:Hgm; cbn;
         [destruct (store_fault svc (S (S calls))) as [e2|] eqn:H2; cbn;
          [|pose proof (stored_messages_update sid
              (Message "assistant" v (datetime_now svc (S (S reads)))) None
              c1 oid1 Hne1) as Hst2;
            destruct (coll_update_one _ _ false c1 oid1) as [c2 oid2];
            cbn [fst snd] in *; cbn]|]);
        (eexists _, _; split; [reflexivity|]; split; [done|]; split;
         [intros ? [= <-]; eexists; split; [reflexivity|];
          split; [intros; congruence|];
          split; [intros ? Hv; rewrite Hgm in Hv; congruence|];
          intros _; first [exact Hlast1 | reflexivity]
         |intros ? [= <-] _; eexists _, _; split; [reflexivity|];
          first [ rewrite Hst2, Hst1, <- app_assoc; reflexivity
                | rewrite Hst1; reflexivity ]]).
    + eexists _, _. split; [reflexivity|]. split; [done|]. split; [done|].
      intros ? [= <-] _. exists c1, []. by rewrite Hst1.
  - (* no handle *)
    unfold_app. cbn.
    destruct (groq_client svc) as [g|]; cbn.
    + split_cases; eexists _, _; (split; [reflexivity|]);
        (split; [done|]); (split; [|done]);
        intros ? [= <-]; eexists; (split; [reflexivity|]);
        (split; [congruence|]); (split; [congruence|]); done.
    + eexists _, _. split; [reflexivity|]. by repeat split.
Qed.

Lemma session_resolved_frame svc st :
  store_calls (session_resolved svc st) = store_calls st
  ∧ clock_reads (session_resolved svc st) = clock_reads st
  ∧ completions (session_resolved svc st) = completions st.
Proof. unfold session_resolved. by destruct (truthy _). Qed.

(** C9. A JSON object without the key ["message"] is not rejected:
    [request.json.get('message')] is [None], [POST /chat] treats the body as
    one with an explicit null message and answers as for any other turn (the
    advisory when the client is not configured, the apology when the
    completion call raises, the reply with status [success] otherwise).  When
    the save on a connected store succeeds, a user message with content
    [None] is appended to the stored conversation; and when the client is
    configured the completion call is made, its last message being the user
    message with content [None] if the handle is [None] or the save
    succeeded. *)
Theorem missing_message_not_validated svc o st :
  o !! "message" = None →
  request_json_get (JsonObject o) "message" st = (Ok PNone, st)
  ∧ chat svc (JsonObject o) st = chat svc (JsonObject (<["message" := PNone]> o)) st
  ∧ ∃ r st', chat svc (JsonObject o) st = (Ok r, st')
      ∧ (groq_client svc = None → r = groq_not_configured)
      ∧ (∀ g, groq_client svc = Some g →
           ∃ msgs, completions st' = completions st ++ [msgs]
             ∧ (∀ e, g msgs = Raise e → r = ai_service_error)
             ∧ (∀ v, g msgs = Ok v → r = success_body v)
             ∧ (conversations st = None ∨ store_fault svc (store_calls st) = None →
                  last msgs = Some (ChatMessage "user" PNone)))
      ∧ (∀ c, conversations st = Some c →
           store_fault svc (store_calls st) = None →
           ∃ c' rest, conversations st' = Some c'
             ∧ stored_messages (chat_session_id svc st) c'
               = stored_messages (chat_session_id svc st) c ++
                 Message "user" PNone (datetime_now svc (clock_reads st)) :: rest).
Proof.
  intros Ho. split; [|split].
  - unfold request_json_get, ret. by rewrite Ho.
  - by rewrite !chat_object, Ho, lookup_insert_eq.
  - rewrite chat_object, Ho. cbn [default from_option id].
    destruct (session_resolved_frame svc st) as (Hcalls & Hreads & Hcomps).
    destruct (chat_turn_outcome svc (chat_session_id svc st) PNone
                (session_resolved svc st))
      as (r & st' & Hrun & Hnone & Hsome & Hstore).
    rewrite Hrun. exists r, st'. split; [reflexivity|].
    rewrite session_resolved_conversations, Hcalls, Hreads, Hcomps in *.
    split; [intros Hg; by apply Hnone|]. split; [exact Hsome|exact Hstore].
Qed.

(** The body [{}]. *)
Lemma missing_message_not_validated_witness :
  request_json_get (JsonObject ∅) "message" fresh_connected
    = (Ok PNone, fresh_connected)
  ∧ (chat healthy (JsonObject ∅) fresh_connected).1
    = Ok (success_body (PStr "Hello! How can I help you today?"))
  ∧ conversations (chat healthy (JsonObject ∅) fresh_connected).2
    = Some [Document (Some 0) (Some (sample_tokens 0))
              (Some [Message "user" PNone 1000;
                     Message "assistant"
                       (PStr "Hello! How can I help you today?") 1002])
              None (Some 1001) None None None]
  ∧ completions (chat healthy (JsonObject ∅) fresh_connected).2
    = [[system_prompt; ChatMessage "user" PNone]].
Proof.
  destruct (missing_message_not_validated healthy ∅ fresh_connected
              (lookup_empty _))
    as (Hget & _ & r & st' & Hrun & _ & Hsome & _).
  split; [exact Hget|].
  destruct (Hsome greeting eq_refl) as (msgs & _ & _ & Hok & _).
  rewrite Hrun. cbn [fst snd].
  split; [f_equal; by apply Hok|].
  assert (st' = (chat healthy (JsonObject ∅) fresh_connected).2) as ->
    by (by rewrite Hrun).
  split; reflexivity.
Defined.

(** * Further properties of the handlers *)

(** ** [GET /] *)

(** Whatever the [try] block of [GET /] raises is dropped: the handler ends
    as [render_template('index.html')] does, with the page or with the
    exception that call raises.  Either way the session holds a token
    afterwards, and a session that already had one is left as it was,
    together with the store: no token is drawn and no call is made on the
    collection. *)
Theorem home_keeps_cookie svc st :
  ∃ st', home svc st = (render_template svc "index.html", st')
    ∧ is_Some (session st' !! "session_id")
    ∧ (is_Some (session st !! "session_id") → st' = st).
Proof.
  destruct st as [conv sess oid calls drawn reads comps].
  unfold_app. cbn.
  destruct (sess !! "session_id") as [s|] eqn:Hs; cbn.
  - eexists. split; [reflexivity|]. cbn. rewrite Hs. by split.
  - split_cases; eexists; (split; [reflexivity|]); cbn;
      rewrite lookup_insert_eq; (split; [done|]); by intros [? ?].
Qed.

(** A missing template: the session and the conversation are set up, and
    the exception of [render_template] leaves the handler. *)
Example home_template_missing :
  home (Services (Some greeting) (λ _, None) sample_tokens sample_clock
          (λ name, Raise ("TemplateNotFound: " +:+ name)))
       fresh_connected
  = (Raise "TemplateNotFound: index.html", after_home healthy).
Proof. reflexivity. Qed.

(** A first visit on a connected store whose insert succeeds: the next
    token goes into the session, an empty conversation is stored under it at
    the end of the collection, and [GET /history] then answers with no
    messages (the token being non-empty and not in use). *)
Theorem home_new_visitor svc st c :
  conversations st = Some c →
  session st !! "session_id" = None →
  store_fault svc (store_calls st) = None →
  token_hex svc (tokens_drawn st) ≠ "" →
  coll_find_one (BySessionId (token_hex svc (tokens_drawn st))) c = None →
  ∃ st1 st2,
    home svc st = (render_template svc "index.html", st1)
    ∧ session st1 !! "session_id" = Some (token_hex svc (tokens_drawn st))
    ∧ conversations st1
      = Some (c ++ [empty_conversation svc st (token_hex svc (tokens_drawn st))])
    ∧ get_history svc st1 = (Ok no_messages, st2).
Proof.
  intros Hc Hs H0 Htok Hfree.
  destruct st as [conv sess oid calls drawn reads comps]. cbn in *. subst conv.
  unfold no_messages, empty_conversation. unfold_app. cbn. rewrite Hs. cbn.
  rewrite H0. cbn. eexists _, _. split; [reflexivity|]. cbn.
  rewrite lookup_insert_eq. split; [done|]. split; [done|]. cbn.
  rewrite (bool_decide_true _ Htok). cbn.
  destruct (store_fault svc (S calls)); cbn; [done|].
  rewrite coll_find_one_app, Hfree. unfold coll_find_one. cbn.
  by rewrite bool_decide_true.
Qed.

(** A first visit whose insert raises: the exception is swallowed, the token
    is in the session all the same, and nothing is stored under it. *)
Theorem home_insert_fails svc st c e :
  conversations st = Some c →
  session st !! "session_id" = None →
  store_fault svc (store_calls st) = Some e →
  ∃ st1,
    home svc st = (render_template svc "index.html", st1)
    ∧ session st1 !! "session_id" = Some (token_hex svc (tokens_drawn st))
    ∧ conversations st1 = Some c.
Proof.
  intros Hc Hs H0.
  destruct st as [conv sess oid calls drawn reads comps]. cbn in *. subst conv.
  unfold_app. cbn. rewrite Hs. cbn. rewrite H0. cbn.
  eexists. split; [reflexivity|]. cbn. by rewrite lookup_insert_eq.
Qed.

(** ** Relating the store before and after a handler *)

Section StoreRel.
Context (Q : option (list document) → nat → option (list document) → nat → Prop).
Hypothesis Q_refl : ∀ c oid, Q c oid c oid.
Hypothesis Q_trans : ∀ c1 o1 c2 o2 c3 o3,
  Q c1 o1 c2 o2 → Q c2 o2 c3 o3 → Q c1 o1 c3 o3.

Lemma preserves_ret {A} (a : A) : preserves Q (ret a).
Proof. intros st. apply Q_refl. Qed.

Lemma preserves_raise {A} (e : exn) : preserves Q (raise (A:=A) e).
Proof. intros st. apply Q_refl. Qed.

Lemma preserves_bind {A B} (m : M A) (k : A → M B) :
  preserves Q m → (∀ a, preserves Q (k a)) → preserves Q (bind m k).
Proof.
  intros Hm Hk st. specialize (Hm st). unfold bind, store_rel in *.
  destruct (m st) as [[a|e] st1]; cbn in *; [|done].
  eapply Q_trans; [exact Hm|]. apply Hk.
Qed.

Lemma preserves_try_except {A} (m : M A) (h : exn → M A) :
  preserves Q m → (∀ e, preserves Q (h e)) → preserves Q (try_except m h).
Proof.
  intros Hm Hh st. specialize (Hm st). unfold try_except, store_rel in *.
  destruct (m st) as [[a|e] st1]; cbn in *; [done|].
  eapply Q_trans; [exact Hm|]. apply Hh.
Qed.

(** A computation that leaves the collection and the next [_id] alone. *)
Lemma preserves_frame {A} (m : M A) :
  (∀ st, conversations (m st).2 = conversations st
         ∧ next_oid (m st).2 = next_oid st) →
  preserves Q m.
Proof.
  intros Hm st. destruct (Hm st) as [Hc Ho]. unfold store_rel.
  rewrite Hc, Ho. apply Q_refl.
Qed.

(** A call on the collection: it is enough that the operation, when it is
    carried out, relates the collection after to the collection before. *)
Lemma preserves_collection_call {A} svc method
    (op : list document → nat → A * list document * nat) :
  (∀ c oid, Q (Some c) oid (Some (op c oid).1.2) (op c oid).2) →
  preserves Q (collection_call svc method op).
Proof.
  intros Hop st. unfold collection_call, store_rel.
  destruct st as [conv sess oid calls drawn reads comps]. cbn.
  destruct conv as [c|]; cbn; [|apply Q_refl].
  destruct (store_fault svc calls); cbn; [apply Q_refl|].
  specialize (Hop c oid). by destruct (op c oid) as [[a c'] oid'].
Qed.

Lemma preserves_find_one svc q : preserves Q (find_one svc q).
Proof. apply preserves_collection_call. intros c oid. apply Q_refl. Qed.

Lemma preserves_datetime_now_call svc : preserves Q (datetime_now_call svc).
Proof. by apply preserves_frame. Qed.

Lemma preserves_secrets_token_hex svc : preserves Q (secrets_token_hex svc).
Proof. by apply preserves_frame. Qed.

Lemma preserves_session_get k : preserves Q (session_get k).
Proof. by apply preserves_frame. Qed.

Lemma preserves_session_set k v : preserves Q (session_set k v).
Proof. by apply preserves_frame. Qed.

Lemma preserves_conversations_is_not_None :
  preserves Q conversations_is_not_None.
Proof. by apply preserves_frame. Qed.

Lemma preserves_request_json_get body k : preserves Q (request_json_get body k).
Proof. apply preserves_frame. by destruct body. Qed.

Lemma preserves_completions_create g msgs :
  preserves Q (completions_create g msgs).
Proof. by apply preserves_frame. Qed.

Lemma preserves_render_template_call svc name :
  preserves Q (render_template_call svc name).
Proof. by apply preserves_frame. Qed.

End StoreRel.

(** Walk through a handler built from [bind], [try_except], tests and the
    runtime calls; what is left are the writes on the collection. *)
Ltac preserves_walk :=
  repeat match goal with
  | |- preserves _ (ret _) => apply preserves_ret
  | |- preserves _ (raise _) => apply preserves_raise
  | |- preserves _ (find_one _ _) => apply preserves_find_one
  | |- preserves _ (datetime_now_call _) => apply preserves_datetime_now_call
  | |- preserves _ (secrets_token_hex _) => apply preserves_secrets_token_hex
  | |- preserves _ (session_get _) => apply preserves_session_get
  | |- preserves _ (session_set _ _) => apply preserves_session_set
  | |- preserves _ conversations_is_not_None =>
      apply preserves_conversations_is_not_None
  | |- preserves _ (request_json_get _ _) => apply preserves_request_json_get
  | |- preserves _ (completions_create _ _) =>
      apply preserves_completions_create
  | |- preserves _ (render_template_call _ _) =>
      apply preserves_render_template_call
  | |- preserves _ (bind _ _) => apply preserves_bind; [| |intros ?]
  | |- preserves _ (try_except _ _) => apply preserves_try_except; [| |intros ?]
  | |- preserves _ (if ?b then _ else _) => destruct b
  | |- preserves _ (match ?x with _ => _ end) => destruct x
  | |- ∀ _ _ _ _ _ _, _ → _ → _ => assumption
  | |- ∀ _ _, _ => assumption
  end.

Section Handlers.
Context (svc : services).
Context (Q : option (list document) → nat → option (list document) → nat → Prop).
Hypothesis Q_refl : ∀ c oid, Q c oid c oid.
Hypothesis Q_trans : ∀ c1 o1 c2 o2 c3 o3,
  Q c1 o1 c2 o2 → Q c2 o2 c3 o3 → Q c1 o1 c3 o3.

Lemma preserves_update_one sid u upsert :
  update_ok Q sid → is_Some (push_messages u) →
  preserves Q (update_one svc (BySessionId sid) u upsert).
Proof.
  intros Hu Hp. apply preserves_collection_call; [done..|].
  intros c oid. specialize (Hu u upsert c oid Hp).
  by destruct (coll_update_one _ _ _ _ _).
Qed.

Lemma preserves_insert_one d :
  insert_ok Q → _id d = None → preserves Q (insert_one svc d).
Proof.
  intros Hi Hd. apply preserves_collection_call; [done..|].
  intros c oid. by apply Hi.
Qed.

Lemma preserves_delete_one q :
  delete_ok Q → preserves Q (delete_one svc q).
Proof.
  intros Hd. apply preserves_collection_call; [done..|].
  intros c oid. apply Hd.
Qed.

Lemma chat_turn_preserves sid user_message :
  update_ok Q sid → preserves Q (chat_turn svc sid user_message).
Proof.
  intros Hu. unfold chat_turn, save_user_message, fetch_chat_history,
    save_ai_response.
  preserves_walk; by apply preserves_update_one.
Qed.

Lemma chat_preserves body :
  (∀ sid, update_ok Q sid) → preserves Q (chat svc body).
Proof.
  intros Hu. unfold chat, save_user_message, fetch_chat_history,
    save_ai_response.
  preserves_walk; by apply preserves_update_one.
Qed.

Lemma get_history_preserves : preserves Q (get_history svc).
Proof. unfold get_history. preserves_walk. Qed.

Lemma home_preserves : insert_ok Q → preserves Q (home svc).
Proof.
  intros Hi. unfold home. preserves_walk. by apply preserves_insert_one.
Qed.

Lemma clear_chat_preserves :
  insert_ok Q → delete_ok Q → preserves Q (clear_chat svc).
Proof.
  intros Hi Hd. unfold clear_chat. preserves_walk.
  - by apply preserves_delete_one.
  - by apply preserves_insert_one.
Qed.

Lemma test_mongodb_preserves :
  insert_ok Q → delete_ok Q → preserves Q (test_mongodb svc).
Proof.
  intros Hi Hd. unfold test_mongodb. preserves_walk.
  - by apply preserves_insert_one.
  - by apply preserves_delete_one.
Qed.

End Handlers.

(** ** The [_id]s of the collection *)

Lemma keeps_ids_fresh_refl c oid : keeps_ids_fresh c oid c oid.
Proof. destruct c; cbn; auto. Qed.

Lemma keeps_ids_fresh_trans c1 o1 c2 o2 c3 o3 :
  keeps_ids_fresh c1 o1 c2 o2 → keeps_ids_fresh c2 o2 c3 o3 →
  keeps_ids_fresh c1 o1 c3 o3.
Proof. destruct c1, c2, c3; unfold keeps_ids_fresh; naive_solver. Qed.

Lemma ids_fresh_snoc oid c d :
  ids_fresh oid c → ids_fresh (S oid) (c ++ [with_id oid d]).
Proof.
  intros [Hlt Hnd]. unfold ids_fresh. rewrite fmap_app. cbn. split.
  - apply Forall_app. split; [|repeat constructor; eauto].
    eapply Forall_impl; [exact Hlt|]. intros o (i & -> & Hi). eauto with lia.
  - apply NoDup_app. split; [done|]. split; [|apply NoDup_singleton].
    intros o Ho ->%list_elem_of_singleton.
    rewrite Forall_forall in Hlt. destruct (Hlt _ Ho) as (i & [= <-] & Hi). lia.
Qed.

Lemma coll_delete_one_ids q c :
  _id <$> coll_delete_one q c `sublist_of` _id <$> c.
Proof.
  induction c as [|d c IH]; cbn; [done|].
  destruct (matches q d); cbn; by constructor.
Qed.

Lemma ids_fresh_delete oid q c :
  ids_fresh oid c → ids_fresh oid (coll_delete_one q c).
Proof.
  intros [Hlt Hnd]. pose proof (coll_delete_one_ids q c) as Hsub. split.
  - rewrite Forall_forall in *. intros o Ho. apply Hlt.
    by apply (sublist_subseteq _ _ Hsub).
  - by eapply sublist_NoDup.
Qed.

Lemma ids_fresh_update sid u upsert c oid :
  ids_fresh oid c →
  ids_fresh (coll_update_one (BySessionId sid) u upsert c oid).2
            (coll_update_one (BySessionId sid) u upsert c oid).1.
Proof.
  intros Hc. unfold coll_update_one.
  destruct (coll_update_first _ _ c) as [c'|] eqn:Hu; cbn.
  - unfold ids_fresh in *.
    assert (_id <$> c' = _id <$> c) as ->; [|done].
    eapply coll_update_first_fmap; [|exact Hu]. done.
  - destruct upsert; cbn; [|done].
    apply (ids_fresh_snoc oid c
             (apply_update u (seed (BySessionId sid) oid)) Hc).
Qed.

(** Whatever the request, the faults of the store and the answers of the
    completion service: every handler keeps the [_id]s of the collection
    distinct and below the next free one. *)
Theorem store_wf_preserved svc body st :
  store_wf st →
  store_wf (home svc st).2
  ∧ store_wf (chat svc body st).2
  ∧ store_wf (get_history svc st).2
  ∧ store_wf (clear_chat svc st).2
  ∧ store_wf (test_mongodb svc st).2.
Proof.
  intros Hwf.
  assert (∀ sid, update_ok keeps_ids_fresh sid) as Hu
    by (intros sid u upsert c oid _ Hc; by apply ids_fresh_update).
  assert (insert_ok keeps_ids_fresh) as Hi
    by (intros d c oid _ Hc; by apply ids_fresh_snoc).
  assert (delete_ok keeps_ids_fresh) as Hd
    by (intros q c oid Hc; by apply ids_fresh_delete).
  assert (∀ {A} (m : M A), preserves keeps_ids_fresh m → store_wf (m st).2)
    as Hkeep.
  { intros A m Hm. specialize (Hm st). unfold store_rel, keeps_ids_fresh,
      store_wf in *.
    destruct (conversations st), (conversations (m st).2); auto; done. }
  repeat split; apply Hkeep;
    [apply home_preserves | apply chat_preserves | apply get_history_preserves
    |apply clear_chat_preserves | apply test_mongodb_preserves];
    first [exact keeps_ids_fresh_refl | exact keeps_ids_fresh_trans
          |assumption].
Qed.

Lemma store_wf_preserved_witness :
  store_wf (home healthy (after_home healthy)).2
  ∧ store_wf (chat healthy (JsonObject {[ "message" := PStr "Hello" ]})
                   (after_home healthy)).2
  ∧ store_wf (get_history healthy (after_home healthy)).2
  ∧ store_wf (clear_chat healthy (after_home healthy)).2
  ∧ store_wf (test_mongodb healthy (after_home healthy)).2.
Proof.
  apply (store_wf_preserved healthy
           (JsonObject {[ "message" := PStr "Hello" ]}) (after_home healthy)).
  split.
  - repeat constructor. exists 0. split; [reflexivity|vm_compute; lia].
  - vm_compute. repeat constructor. intros H. inversion H.
Defined.

(** ** [/test-mongodb] and the collection *)

Lemma coll_delete_one_probe c oid d :
  Forall (λ o, ∃ i, o = Some i ∧ i < oid) (_id <$> c) →
  coll_delete_one (ById oid) (c ++ [with_id oid d]) = c.
Proof.
  induction c as [|d' c IH]; cbn.
  - intros _. by rewrite bool_decide_true.
  - intros [(i & Hi & Hlt) Hc]%Forall_cons. rewrite Hi.
    rewrite bool_decide_false; [|intros [= Heq]; subst; lia].
    by rewrite IH.
Qed.

(** [GET /test-mongodb] on a connected store with fresh [_id]s, for every
    pattern of faults: the collection ends as it was when the insert raises
    or when both calls succeed, and with the probe document left behind at
    its end when the insert succeeds and the delete raises.  The session is
    never touched. *)
Theorem test_mongodb_restores svc st c :
  conversations st = Some c →
  store_wf st →
  conversations (test_mongodb svc st).2
  = match store_fault svc (store_calls st),
          store_fault svc (S (store_calls st)) with
    | None, Some _ => Some (c ++ [probe_document svc st])
    | _, _ => Some c
    end
  ∧ session (test_mongodb svc st).2 = session st.
Proof.
  intros Hc Hwf. unfold store_wf in Hwf. rewrite Hc in Hwf.
  destruct Hwf as [Hlt _].
  destruct st as [conv sess oid calls drawn reads comps]. cbn in *. subst conv.
  unfold probe_document. unfold_app. cbn.
  destruct (store_fault svc calls); cbn; [done|].
  destruct (store_fault svc (S calls)); cbn; [done|].
  split; [|done]. f_equal.
  by apply (coll_delete_one_probe c oid
              (Document None None None None None (Some true)
                 (Some (datetime_now svc reads)) (Some "Test connection"))).
Qed.

Lemma test_mongodb_restores_witness :
  conversations (test_mongodb healthy (after_home healthy)).2
  = conversations (after_home healthy)
  ∧ session (test_mongodb healthy (after_home healthy)).2
    = session (after_home healthy).
Proof.
  refine (test_mongodb_restores healthy (after_home healthy) _ eq_refl _).
  split.
  - repeat constructor. exists 0. split; [reflexivity|vm_compute; lia].
  - vm_compute. repeat constructor. intros H. inversion H.
Defined.

(** ** [/chat] on a body that is not a JSON object *)

Lemma chat_not_object svc body st :
  (∀ o, body ≠ JsonObject o) →
  chat svc body st = (Ok something_went_wrong, st).
Proof. intros Hb. destruct body as [|o|]; [done| |done]. by destruct (Hb o). Qed.

(** A body that is not JSON, or JSON that is not an object (null, a list, a
    string, a number), is answered by the generic error, and nothing else
    happens: no token is drawn, nothing is stored, the completion service is
    not called. *)
Theorem chat_bad_body svc body st :
  (∀ o, body ≠ JsonObject o) →
  chat svc body st = (Ok something_went_wrong, st)
  ∧ status_of something_went_wrong = Some (JStr "error").
Proof. intros Hb. split; [by apply chat_not_object|done]. Qed.

Lemma chat_bad_body_witness :
  chat healthy NotJson fresh_connected
  = (Ok something_went_wrong, fresh_connected)
  ∧ chat healthy JsonOther fresh_connected
    = (Ok something_went_wrong, fresh_connected).
Proof.
  split.
  - by apply (chat_bad_body healthy NotJson fresh_connected).
  - by apply (chat_bad_body healthy JsonOther fresh_connected).
Defined.

(** ** [/chat] and the conversations of other sessions *)

Lemma coll_find_one_update_first_other q q' f c c' :
  (∀ d, matches q' (f d) = matches q' d) →
  (∀ d, matches q d = true → matches q' d = false) →
  coll_update_first q f c = Some c' →
  coll_find_one q' c' = coll_find_one q' c.
Proof.
  intros Hf Hqq'. unfold coll_find_one. revert c'.
  induction c as [|d c IH]; intros c'; cbn; [done|].
  destruct (matches q d) eqn:Hm.
  - intros [= <-]. cbn. by rewrite Hf, (Hqq' d Hm).
  - destruct (coll_update_first q f c) as [c''|]; [|done].
    intros [= <-]. cbn. by rewrite (IH c'').
Qed.

Lemma matches_other_session sid sid' d :
  sid' ≠ sid →
  matches (BySessionId sid) d = true → matches (BySessionId sid') d = false.
Proof.
  intros Hne Hm. cbn in *. apply bool_decide_eq_true in Hm.
  apply bool_decide_eq_false. congruence.
Qed.

Lemma stored_messages_other sid sid' u upsert c oid :
  sid' ≠ sid →
  stored_messages sid' (coll_update_one (BySessionId sid) u upsert c oid).1
  = stored_messages sid' c.
Proof.
  intros Hne. unfold stored_messages, coll_update_one.
  destruct (coll_update_first _ _ c) as [c'|] eqn:Hu; cbn [fst].
  - rewrite (coll_find_one_update_first_other (BySessionId sid)
               (BySessionId sid') (apply_update u) c c'); [done| | |exact Hu].
    + intros d. apply matches_apply_update.
    + intros d. by apply matches_other_session.
  - destruct upsert; cbn [fst]; [|done].
    rewrite coll_find_one_app.
    destruct (coll_find_one (BySessionId sid') c); [done|].
    unfold coll_find_one. cbn.
    rewrite bool_decide_false; [done|]. congruence.
Qed.

Lemma stored_messages_own sid u upsert c oid :
  stored_messages sid c
  `prefix_of`
  stored_messages sid (coll_update_one (BySessionId sid) u upsert c oid).1.
Proof.
  unfold stored_messages. destruct upsert.
  - rewrite coll_find_one_upsert.
    destruct (coll_find_one (BySessionId sid) c) as [d|]; cbn;
      [|apply prefix_nil].
    destruct (push_messages u); cbn; [by apply prefix_app_r|done].
  - rewrite coll_find_one_update.
    destruct (coll_find_one (BySessionId sid) c) as [d|]; cbn; [|done].
    destruct (push_messages u); cbn; [by apply prefix_app_r|done].
Qed.

Lemma extends_refl sid c oid : extends sid c oid c oid.
Proof. destruct c; cbn; auto. Qed.

Lemma extends_trans sid c1 o1 c2 o2 c3 o3 :
  extends sid c1 o1 c2 o2 → extends sid c2 o2 c3 o3 → extends sid c1 o1 c3 o3.
Proof.
  destruct c1 as [l1|], c2 as [l2|], c3 as [l3|]; cbn; try done.
  intros [H12 P12] [H23 P23]. split.
  - intros sid' Hne. by rewrite H23, H12.
  - by etrans.
Qed.

Lemma extends_update sid : update_ok (extends sid) sid.
Proof.
  intros u upsert c oid _. split.
  - intros sid' Hne. by apply stored_messages_other.
  - apply stored_messages_own.
Qed.

(** Whatever the body, the faults of the store and the completion service
    do: [POST /chat] on a connected store leaves the stored messages of
    every session other than the request's own as they were, and only
    appends to those of its own session. *)
Theorem chat_session_isolation svc body st c :
  conversations st = Some c →
  ∃ c', conversations (chat svc body st).2 = Some c'
    ∧ (∀ sid', sid' ≠ chat_session_id svc st →
         stored_messages sid' c' = stored_messages sid' c)
    ∧ stored_messages (chat_session_id svc st) c
      `prefix_of` stored_messages (chat_session_id svc st) c'.
Proof.
  intros Hc. destruct body as [|o|].
  - exists c. by rewrite chat_not_object.
  - rewrite chat_object.
    pose proof (chat_turn_preserves svc (extends (chat_session_id svc st))
                  (extends_refl _) (extends_trans _) (chat_session_id svc st)
                  (default PNone (o !! "message")) (extends_update _)
                  (session_resolved svc st)) as Hext.
    unfold store_rel in Hext.
    rewrite session_resolved_conversations, Hc in Hext.
    destruct (chat_turn _ _ _ _) as [[r|e] st']; cbn in *;
      (destruct (conversations st') as [c'|]; [|done]); by exists c'.
  - exists c. by rewrite chat_not_object.
Qed.

(** ** A turn of [/chat] on a store that answers *)

Lemma prepare_messages_found sid c d l user_message :
  coll_find_one (BySessionId sid) c = Some d →
  messages d = Some l →
  prepare_messages (coll_find_one (BySessionId sid) c) user_message
  = system_prompt :: (to_chat_message <$> slice_last 10 l).
Proof. intros -> Hd. unfold prepare_messages. by rewrite Hd. Qed.

Lemma coll_find_one_upsert_messages sid m ua c oid :
  ∃ d, coll_find_one (BySessionId sid)
         (coll_update_one (BySessionId sid) (Update (Some m) ua) true c oid).1
       = Some d
    ∧ messages d = Some (stored_messages sid c ++ [m]).
Proof.
  rewrite coll_find_one_upsert. eexists. split; [reflexivity|].
  unfold stored_messages.
  by destruct (coll_find_one (BySessionId sid) c).
Qed.

(** The request sent for [user_message] on top of the stored messages. *)
Lemma chat_turn_healthy svc sid user_message st c g :
  conversations st = Some c →
  groq_client svc = Some g →
  store_fault svc (store_calls st) = None →
  store_fault svc (S (store_calls st)) = None →
  let m := Message "user" user_message (datetime_now svc (clock_reads st)) in
  let msgs := system_prompt ::
                (to_chat_message <$> slice_last 10 (stored_messages sid c ++ [m])) in
  ∃ r st' c',
    chat_turn svc sid user_message st = (Ok r, st')
    ∧ completions st' = completions st ++ [msgs]
    ∧ session st' = session st
    ∧ conversations st' = Some c'
    ∧ match g msgs with
      | Raise _ =>
          r = ai_service_error
          ∧ stored_messages sid c' = stored_messages sid c ++ [m]
      | Ok v =>
          r = success_body v
          ∧ stored_messages sid c'
            = stored_messages sid c ++
              m :: match store_fault svc (S (S (store_calls st))) with
                   | None => [Message "assistant" v
                                (datetime_now svc (S (S (clock_reads st))))]
                   | Some _ => []
                   end
      end.
Proof.
  intros Hc Hg H0 H1.
  destruct st as [conv sess oid calls drawn reads comps].
  cbn in Hc, H0, H1. subst conv.
  intros m msgs. subst m msgs.
  cbn [clock_reads store_calls completions session conversations].
  remember (Message "user" user_message (datetime_now svc reads)) as m eqn:Hm.
  remember (system_prompt ::
              (to_chat_message <$> slice_last 10 (stored_messages sid c ++ [m])))
    as msgs eqn:Hmsgs.
  unfold chat_turn, success_body. rewrite Hg. unfold_app. cbn.
  rewrite H0. cbn.
  pose proof (stored_messages_upsert sid m
    (Some (datetime_now svc (S reads))) c oid) as Hst1.
  destruct (coll_find_one_upsert_messages sid m
    (Some (datetime_now svc (S reads))) c oid) as (d1 & Hfind1 & Hd1).
  pose proof (prepare_messages_found sid _ d1 _ user_message Hfind1 Hd1)
    as Hprep.
  rewrite <- Hm.
  destruct (coll_update_one _ _ true c oid) as [c1 oid1]. cbn [fst snd] in *.
  cbn. rewrite H1. cbn. rewrite Hprep, <- Hmsgs.
  clear Hprep Hmsgs Hm.
  assert (stored_messages sid c1 ≠ []) as Hne1
    by (rewrite Hst1; by destruct (stored_messages sid c)).
  destruct (g msgs) as [v|e]; cbn.
  - destruct (store_fault svc (S (S calls))) as [e2|]; cbn.
    + eexists _, _, c1. by repeat split.
    + pose proof (stored_messages_update sid
        (Message "assistant" v (datetime_now svc (S (S reads)))) None
        c1 oid1 Hne1) as Hst2.
      destruct (coll_update_one _ _ false c1 oid1) as [c2 oid2].
      cbn [fst snd] in *. cbn.
      eexists _, _, c2. repeat split; try reflexivity.
      by rewrite Hst2, Hst1, <- app_assoc.
  - eexists _, _, c1. by repeat split.
Qed.

Lemma chat_object_healthy svc o st c g :
  conversations st = Some c →
  groq_client svc = Some g →
  store_fault svc (store_calls st) = None →
  store_fault svc (S (store_calls st)) = None →
  let sid := chat_session_id svc st in
  let m := user_message_of svc o st in
  let msgs := context_window (stored_messages sid c ++ [m]) in
  ∃ r st' c',
    chat svc (JsonObject o) st = (Ok r, st')
    ∧ completions st' = completions st ++ [msgs]
    ∧ conversations st' = Some c'
    ∧ match g msgs with
      | Raise _ =>
          r = ai_service_error
          ∧ stored_messages sid c' = stored_messages sid c ++ [m]
      | Ok v =>
          r = success_body v
          ∧ stored_messages sid c'
            = stored_messages sid c ++
              m :: match store_fault svc (S (S (store_calls st))) with
                   | None => [Message "assistant" v
                                (datetime_now svc (S (S (clock_reads st))))]
                   | Some _ => []
                   end
      end.
Proof.
  intros Hc Hg H0 H1 sid m msgs. subst sid m msgs.
  unfold user_message_of, context_window.
  destruct (session_resolved_frame svc st) as (Hcalls & Hreads & Hcomps).
  destruct (chat_turn_healthy svc (chat_session_id svc st)
              (default PNone (o !! "message")) (session_resolved svc st) c g)
    as (r & st' & c' & Hrun & Hcomp & _ & Hconv & Hres);
    [by rewrite session_resolved_conversations|done
    |by rewrite Hcalls|by rewrite Hcalls|].
  rewrite Hcalls, Hreads, Hcomps in *.
  exists r, st', c'. rewrite chat_object, Hrun. by repeat split.
Qed.


Example after_first_turn_run :
  (chat healthy (JsonObject {[ "message" := PStr "Hello" ]})
        (after_home healthy)).2 = after_first_turn.
Proof. reflexivity. Qed.


(** A turn that goes through: the answer is the reply with status
    [success], and the stored conversation grows by the user message and,
    when the save of the reply succeeds too, by the reply; when that save
    raises the reply is answered all the same but only the user message is
    stored. *)
Theorem chat_stores_turn svc o st c g v :
  conversations st = Some c →
  groq_client svc = Some g →
  store_fault svc (store_calls st) = None →
  store_fault svc (S (store_calls st)) = None →
  g (context_window (stored_messages (chat_session_id svc st) c
                     ++ [user_message_of svc o st])) = Ok v →
  ∃ st' c',
    chat svc (JsonObject o) st = (Ok (success_body v), st')
    ∧ conversations st' = Some c'
    ∧ stored_messages (chat_session_id svc st) c'
      = stored_messages (chat_session_id svc st) c ++
        user_message_of svc o st ::
        match store_fault svc (S (S (store_calls st))) with
        | None => [Message "assistant" v
                     (datetime_now svc (S (S (clock_reads st))))]
        | Some _ => []
        end.
Proof.
  intros Hc Hg H0 H1 Hv.
  destruct (chat_object_healthy svc o st c g Hc Hg H0 H1)
    as (r & st' & c' & Hrun & _ & Hconv & Hres).
  rewrite Hv in Hres. destruct Hres as [-> Hst].
  by exists st', c'.
Qed.

Lemma chat_stores_turn_witness :
  ∃ st' c',
    chat healthy (JsonObject {[ "message" := PStr "And you?" ]}) after_first_turn
    = (Ok (success_body (PStr "Hello! How can I help you today?")), st')
    ∧ conversations st' = Some c'
    ∧ stored_messages (sample_tokens 0) c'
      = [Message "user" (PStr "Hello") 1002;
         Message "assistant" (PStr "Hello! How can I help you today?") 1004;
         Message "user" (PStr "And you?") 1005;
         Message "assistant" (PStr "Hello! How can I help you today?") 1007].
Proof.
  exact (chat_stores_turn healthy {[ "message" := PStr "And you?" ]}
           after_first_turn _ greeting
           (PStr "Hello! How can I help you today?")
           eq_refl eq_refl eq_refl eq_refl eq_refl).
Defined.

(** A turn whose completion call raises: the answer is the apology, and the
    user message stays stored without a reply after it. *)
Theorem chat_failure_keeps_user_message svc o st c g e :
  conversations st = Some c →
  groq_client svc = Some g →
  store_fault svc (store_calls st) = None →
  store_fault svc (S (store_calls st)) = None →
  g (context_window (stored_messages (chat_session_id svc st) c
                     ++ [user_message_of svc o st])) = Raise e →
  ∃ st' c',
    chat svc (JsonObject o) st = (Ok ai_service_error, st')
    ∧ conversations st' = Some c'
    ∧ stored_messages (chat_session_id svc st) c'
      = stored_messages (chat_session_id svc st) c ++ [user_message_of svc o st].
Proof.
  intros Hc Hg H0 H1 He.
  destruct (chat_object_healthy svc o st c g Hc Hg H0 H1)
    as (r & st' & c' & Hrun & _ & Hconv & Hres).
  rewrite He in Hres. destruct Hres as [-> Hst].
  by exists st', c'.
Qed.

Lemma chat_failure_keeps_user_message_witness :
  ∃ st' c',
    chat groq_failing (JsonObject {[ "message" := PStr "Hello" ]})
         (after_home groq_failing)
    = (Ok ai_service_error, st')
    ∧ conversations st' = Some c'
    ∧ stored_messages (sample_tokens 0) c'
      = [Message "user" (PStr "Hello") 1002].
Proof.
  exact (chat_failure_keeps_user_message groq_failing
           {[ "message" := PStr "Hello" ]} (after_home groq_failing)
           _ connection_error "APIConnectionError: Connection error."
           eq_refl eq_refl eq_refl eq_refl eq_refl).
Defined.

(** ** [/chat] without a completion client *)

(** With the client not configured, [POST /chat] answers the advisory with
    status [error] and calls no completion service; but the user message has
    been saved before that test: on a connected store whose save succeeds
    the stored conversation grows by it. *)
Theorem chat_not_configured_still_saves svc o st :
  groq_client svc = None →
  ∃ st', chat svc (JsonObject o) st = (Ok groq_not_configured, st')
    ∧ completions st' = completions st
    ∧ ∀ c, conversations st = Some c →
           store_fault svc (store_calls st) = None →
           ∃ c', conversations st' = Some c'
             ∧ stored_messages (chat_session_id svc st) c'
               = stored_messages (chat_session_id svc st) c
                 ++ [user_message_of svc o st].
Proof.
  intros Hg. rewrite chat_object.
  destruct (session_resolved_frame svc st) as (Hcalls & Hreads & Hcomps).
  pose proof (session_resolved_conversations svc st) as Hconv.
  unfold user_message_of. rewrite <- Hcalls, <- Hreads, <- Hcomps, <- Hconv.
  generalize (session_resolved svc st) as st0.
  generalize (chat_session_id svc st) as sid.
  intros sid st0. destruct st0 as [conv sess oid calls drawn reads comps].
  unfold chat_turn. rewrite Hg. unfold_app. cbn.
  destruct conv as [c|]; cbn; [|by eexists].
  destruct (store_fault svc calls) as [e|] eqn:H0; cbn.
  - eexists. by repeat split.
  - pose proof (stored_messages_upsert sid
      (Message "user" (default PNone (o !! "message")) (datetime_now svc reads))
      (Some (datetime_now svc (S reads))) c oid) as Hst.
    destruct (coll_update_one _ _ true c oid) as [c1 oid1]. cbn [fst snd] in *.
    cbn. eexists. split; [reflexivity|]. split; [reflexivity|].
    intros ? [= <-] _. by exists c1.
Qed.

(** A service without the completion client. *)
Lemma chat_not_configured_still_saves_witness :
  ∃ st', chat (Services None (λ _, None) sample_tokens sample_clock sample_page)
              (JsonObject {[ "message" := PStr "Hello" ]}) fresh_connected
         = (Ok groq_not_configured, st')
    ∧ completions st' = []
    ∧ conversations st'
      = Some [Document (Some 0) (Some (sample_tokens 0))
                (Some [Message "user" (PStr "Hello") 1000])
                None (Some 1001) None None None].
Proof.
  destruct (chat_not_configured_still_saves
              (Services None (λ _, None) sample_tokens sample_clock sample_page)
              {[ "message" := PStr "Hello" ]} fresh_connected eq_refl)
    as (st' & Hrun & Hcomp & _).
  exists st'. split; [exact Hrun|]. split; [exact Hcomp|].
  by injection Hrun as <-.
Defined.

(** ** [/chat] and the session token *)

Lemma chat_turn_session svc sid user_message st :
  session (chat_turn svc sid user_message st).2 = session st
  ∧ tokens_drawn (chat_turn svc sid user_message st).2 = tokens_drawn st.
Proof.
  destruct st as [conv sess oid calls drawn reads comps].
  unfold chat_turn. unfold_app. split_cases; done.
Qed.

(** After [POST /chat] with a JSON object the session holds the token the
    turn worked under; a non-empty token of the cookie is never replaced and
    no token is drawn for it, while a missing or empty one is replaced by
    exactly one newly drawn token, store or no store. *)
Theorem chat_session_token svc o st :
  session (chat svc (JsonObject o) st).2 !! "session_id"
  = Some (chat_session_id svc st)
  ∧ (truthy (session st !! "session_id") = true →
       session (chat svc (JsonObject o) st).2 = session st
       ∧ tokens_drawn (chat svc (JsonObject o) st).2 = tokens_drawn st)
  ∧ (truthy (session st !! "session_id") = false →
       chat_session_id svc st = token_hex svc (tokens_drawn st)
       ∧ tokens_drawn (chat svc (JsonObject o) st).2 = S (tokens_drawn st)).
Proof.
  rewrite chat_object.
  destruct (chat_turn_session svc (chat_session_id svc st)
              (default PNone (o !! "message")) (session_resolved svc st))
    as [Hs Ht].
  assert (∀ p : result (gmap string jval) * state,
            (match p with
             | (Ok r, st') => (Ok r, st')
             | (Raise e, st') => (Ok something_went_wrong, st')
             end).2 = p.2) as Hsnd by (by intros [[?|?] ?]).
  rewrite Hsnd, Hs, Ht. clear Hsnd Hs Ht.
  unfold session_resolved, chat_session_id, truthy.
  destruct (session st !! "session_id") as [s|] eqn:Hlook.
  - destruct (bool_decide (s ≠ "")); cbn.
    + by rewrite Hlook.
    + by rewrite lookup_insert_eq.
  - cbn. by rewrite lookup_insert_eq.
Qed.

(** ** A reply without a conversation to store it in *)

Lemma coll_update_one_no_match q u c oid :
  coll_find_one q c = None → coll_update_one q u false c oid = (c, oid).
Proof.
  intros Hn. unfold coll_update_one.
  by rewrite (proj2 (coll_update_first_None q (apply_update u) c) Hn).
Qed.

(** The save of the reply has no upsert.  When the session has no stored
    document and the save of the user message raises, the turn still gets
    its reply (the store recovering or not), answered with status
    [success]; but the collection ends as it was: neither the user message
    nor the reply is stored. *)
Theorem chat_reply_without_document svc o st c g e :
  conversations st = Some c →
  groq_client svc = Some g →
  coll_find_one (BySessionId (chat_session_id svc st)) c = None →
  store_fault svc (store_calls st) = Some e →
  ∃ r st', chat svc (JsonObject o) st = (Ok r, st')
    ∧ conversations st' = Some c
    ∧ completions st'
      = completions st ++
        [[system_prompt; ChatMessage "user" (default PNone (o !! "message"))]]
    ∧ ∀ v, g [system_prompt; ChatMessage "user" (default PNone (o !! "message"))]
           = Ok v → r = success_body v.
Proof.
  intros Hc Hg Hnone H0. rewrite chat_object.
  destruct (session_resolved_frame svc st) as (Hcalls & Hreads & Hcomps).
  pose proof (session_resolved_conversations svc st) as Hconv.
  rewrite <- Hcalls in H0. rewrite <- Hcomps. rewrite <- Hconv in Hc.
  revert Hc H0 Hnone.
  generalize (session_resolved svc st) as st0.
  generalize (chat_session_id svc st) as sid.
  intros sid st0 Hc H0 Hnone.
  destruct st0 as [conv sess oid calls drawn reads comps]. cbn in Hc, H0.
  subst conv. unfold chat_turn, success_body. rewrite Hg. unfold_app. cbn.
  rewrite H0. cbn.
  destruct (store_fault svc (S calls)) as [e1|]; cbn;
    rewrite ?Hnone; unfold prepare_messages;
    (destruct (g _) as [v|e'] eqn:Hgv; cbn;
     [destruct (store_fault svc (S (S calls))) as [e2|]; cbn;
      rewrite ?(coll_update_one_no_match _ _ _ _ Hnone); cbn|]);
    eexists _, _; (split; [reflexivity|]); (split; [reflexivity|]);
    (split; [reflexivity|]); intros v' Hv'; congruence.
Qed.

Lemma chat_reply_without_document_witness :
  ∃ r st',
    chat (Services (Some greeting)
            (λ n, match n with 0 => Some "NetworkTimeout: timed out" | _ => None end)
            sample_tokens sample_clock sample_page)
         (JsonObject {[ "message" := PStr "Hello" ]}) fresh_connected
    = (Ok r, st')
    ∧ conversations st' = Some []
    ∧ r = success_body (PStr "Hello! How can I help you today?").
Proof.
  destruct (chat_reply_without_document
              (Services (Some greeting)
                 (λ n, match n with
                       | 0 => Some "NetworkTimeout: timed out"
                       | _ => None
                       end)
                 sample_tokens sample_clock sample_page)
              {[ "message" := PStr "Hello" ]} fresh_connected [] greeting
              "NetworkTimeout: timed out" eq_refl eq_refl eq_refl eq_refl)
    as (r & st' & Hrun & Hconv & _ & Hr).
  exists r, st'. split; [exact Hrun|]. split; [exact Hconv|].
  by apply Hr.
Defined.

(** ** [GET /history] *)

(** [GET /history] never raises and never writes: collection, session,
    tokens and completion trace are as before.  Its answer is the list of
    the messages stored for the session token when the token is non-empty
    and the call on a connected store succeeds, and the empty list in every
    other case. *)
Theorem get_history_reads_only svc st :
  ∃ body st',
    get_history svc st = (Ok body, st')
    ∧ conversations st' = conversations st
    ∧ next_oid st' = next_oid st
    ∧ session st' = session st
    ∧ tokens_drawn st' = tokens_drawn st
    ∧ completions st' = completions st
    ∧ body
      = match session st !! "session_id", conversations st,
              store_fault svc (store_calls st) with
        | Some t, Some c, None =>
            if bool_decide (t ≠ "")
            then {[ "messages" := JMessages (stored_messages t c) ]}
            else no_messages
        | _, _, _ => no_messages
        end.
Proof.
  destruct st as [conv sess oid calls drawn reads comps].
  unfold no_messages, stored_messages. unfold_app. cbn.
  destruct (sess !! "session_id") as [t|]; cbn; [|by eexists _, _].
  destruct (bool_decide (t ≠ "")); cbn;
    [|destruct conv as [c|]; [destruct (store_fault svc calls)|];
      by eexists _, _].
  destruct conv as [c|]; cbn; [|by eexists _, _].
  destruct (store_fault svc calls); cbn; [by eexists _, _|].
  destruct (coll_find_one (BySessionId t) c) as [d|]; cbn; [|by eexists _, _].
  destruct (messages d); cbn; by eexists _, _.
Qed.

(** ** [/clear]: failures and other sessions *)

(** [POST /clear] when the delete raises: the answer is [clear_failed], and
    session token and collection are as before.  When the delete succeeds
    and the insert raises, the answer is [clear_failed] as well, although
    the old conversation is deleted and the session holds the new token,
    under which nothing is stored. *)
Theorem clear_chat_failures svc st c old :
  conversations st = Some c →
  session st !! "session_id" = Some old →
  old ≠ "" →
  (∀ e, store_fault svc (store_calls st) = Some e →
     ∃ st', clear_chat svc st = (Ok clear_failed, st')
       ∧ session st' = session st
       ∧ conversations st' = Some c)
  ∧ (∀ e, store_fault svc (store_calls st) = None →
          store_fault svc (S (store_calls st)) = Some e →
     ∃ st', clear_chat svc st = (Ok clear_failed, st')
       ∧ session st' !! "session_id" = Some (token_hex svc (tokens_drawn st))
       ∧ conversations st' = Some (coll_delete_one (BySessionId old) c)).
Proof.
  intros Hc Hs Hold.
  destruct st as [conv sess oid calls drawn reads comps]. cbn in *. subst conv.
  unfold clear_failed. split.
  - intros e H0. unfold_app. cbn. rewrite Hs. cbn.
    rewrite (bool_decide_true _ Hold). cbn. rewrite H0. cbn. by eexists.
  - intros e H0 H1. unfold_app. cbn. rewrite Hs. cbn.
    rewrite (bool_decide_true _ Hold). cbn. rewrite H0. cbn. rewrite H1. cbn.
    eexists. split; [reflexivity|]. cbn. by rewrite lookup_insert_eq.
Qed.

Lemma clear_chat_failures_witness :
  ∃ st', clear_chat store_down two_sessions = (Ok clear_failed, st')
    ∧ session st' = session two_sessions
    ∧ conversations st' = conversations two_sessions.
Proof.
  destruct (clear_chat_failures store_down two_sessions _ (sample_tokens 0)
              eq_refl eq_refl) as [Hdel _]; [discriminate|].
  exact (Hdel "ServerSelectionTimeoutError: timed out" eq_refl).
Defined.

Lemma stored_messages_delete_other sid sid' c :
  sid' ≠ sid →
  stored_messages sid' (coll_delete_one (BySessionId sid) c)
  = stored_messages sid' c.
Proof.
  intros Hne. unfold stored_messages, coll_find_one.
  induction c as [|d c IH]; [done|]. cbn [coll_delete_one].
  destruct (matches (BySessionId sid) d) eqn:Hm.
  - cbn [find]. by rewrite (matches_other_session sid sid' d Hne Hm).
  - cbn [find]. destruct (matches (BySessionId sid') d); [done|]. exact IH.
Qed.

Lemma stored_messages_snoc_empty sid c d :
  default [] (messages d) = [] →
  stored_messages sid (c ++ [d]) = stored_messages sid c.
Proof.
  intros Hd. unfold stored_messages. rewrite coll_find_one_app.
  destruct (coll_find_one (BySessionId sid) c); [done|].
  unfold coll_find_one. cbn [find].
  destruct (matches (BySessionId sid) d); [exact Hd|done].
Qed.

(** Whatever the faults of the store: [POST /clear] leaves the stored
    messages of every session other than the one of the cookie as they
    were. *)
Theorem clear_chat_session_isolation svc st c :
  conversations st = Some c →
  ∃ c', conversations (clear_chat svc st).2 = Some c'
    ∧ ∀ sid', session st !! "session_id" ≠ Some sid' →
        stored_messages sid' c' = stored_messages sid' c.
Proof.
  intros Hc.
  destruct st as [conv sess oid calls drawn reads comps]. cbn in *. subst conv.
  unfold_app. cbn.
  destruct (sess !! "session_id") as [old|]; cbn; [|by exists c].
  destruct (bool_decide (old ≠ "")); cbn; [|by exists c].
  destruct (store_fault svc calls); cbn; [by exists c|].
  destruct (store_fault svc (S calls)); cbn.
  - eexists. split; [reflexivity|]. intros sid' Hne.
    apply stored_messages_delete_other. congruence.
  - eexists. split; [reflexivity|]. intros sid' Hne.
    rewrite stored_messages_snoc_empty by done.
    apply stored_messages_delete_other. congruence.
Qed.

Lemma clear_chat_session_isolation_witness :
  ∃ c', conversations (clear_chat healthy two_sessions).2 = Some c'
    ∧ stored_messages (sample_tokens 1) c'
      = [Message "user" (PStr "second") 1002].
Proof.
  destruct (clear_chat_session_isolation healthy two_sessions _ eq_refl)
    as (c' & Hc' & Hiso).
  exists c'. split; [exact Hc'|].
  rewrite (Hiso (sample_tokens 1)); [reflexivity|discriminate].
Defined.

(** Whatever the faults of the store: [GET /] changes the stored messages of
    no session; the conversation it may add is empty and comes last. *)
Theorem home_keeps_conversations svc st c :
  conversations st = Some c →
  ∃ c', conversations (home svc st).2 = Some c'
    ∧ ∀ sid, stored_messages sid c' = stored_messages sid c.
Proof.
  intros Hc.
  destruct st as [conv sess oid calls drawn reads comps]. cbn in *. subst conv.
  unfold_app. cbn.
  destruct (sess !! "session_id") as [old|]; cbn; [by exists c|].
  destruct (store_fault svc calls); cbn; [by exists c|].
  eexists. split; [reflexivity|]. intros sid.
  by apply stored_messages_snoc_empty.
Qed.

Lemma home_keeps_conversations_witness :
  ∃ c', conversations (home healthy (with_session ∅ two_sessions)).2 = Some c'
    ∧ stored_messages (sample_tokens 0) c'
      = [Message "user" (PStr "first") 1000]
    ∧ stored_messages (sample_tokens 1) c'
      = [Message "user" (PStr "second") 1002].
Proof.
  destruct (home_keeps_conversations healthy (with_session ∅ two_sessions) _
              eq_refl) as (c' & Hc' & Hkeep).
  exists c'. split; [exact Hc'|]. by rewrite !Hkeep.
Defined.

Lemma chat_session_isolation_witness :
  ∃ c', conversations
          (chat healthy (JsonObject {[ "message" := PStr "Hello" ]})
                two_sessions).2 = Some c'
    ∧ stored_messages (sample_tokens 1) c'
      = [Message "user" (PStr "second") 1002]
    ∧ [Message "user" (PStr "first") 1000]
      `prefix_of` stored_messages (sample_tokens 0) c'.
Proof.
  destruct (chat_session_isolation healthy
              (JsonObject {[ "message" := PStr "Hello" ]}) two_sessions _
              eq_refl) as (c' & Hc' & Hiso & Hpre).
  exists c'. split; [exact Hc'|]. split.
  - rewrite (Hiso (sample_tokens 1)); [reflexivity|discriminate].
  - exact Hpre.
Defined.

(** ** One conversation per session token *)

Lemma coll_find_one_None_filter q (c : list document) :
  coll_find_one q c = None → filter (λ d, matches q d = true) c = [].
Proof.
  unfold coll_find_one. induction c as [|d c IH]; cbn [find]; [done|].
  rewrite filter_cons. case_decide as Hm.
  - by rewrite Hm.
  - apply not_true_is_false in Hm. rewrite Hm. exact IH.
Qed.

Lemma coll_update_first_filter q q' f (c c' : list document) :
  (∀ d, matches q' (f d) = matches q' d) →
  coll_update_first q f c = Some c' →
  length (filter (λ d, matches q' d = true) c')
  = length (filter (λ d, matches q' d = true) c).
Proof.
  intros Hf. revert c'. induction c as [|d c IH]; intros c'; cbn; [done|].
  destruct (matches q d).
  - intros [= <-]. rewrite !filter_cons, Hf. by case_decide.
  - destruct (coll_update_first q f c) as [c''|]; [|done].
    intros [= <-]. rewrite !filter_cons. specialize (IH c'' eq_refl).
    case_decide; cbn; by rewrite IH.
Qed.

Lemma one_per_session_snoc c d :
  one_per_session c →
  (∀ sid, session_id d = Some sid →
          coll_find_one (BySessionId sid) c = None) →
  one_per_session (c ++ [d]).
Proof.
  intros Hc Hd sid. rewrite filter_app, length_app, filter_cons, filter_nil.
  case_decide as Hm; cbn [length].
  - cbn in Hm. apply bool_decide_eq_true in Hm.
    rewrite (coll_find_one_None_filter _ _ (Hd sid Hm)). cbn. lia.
  - specialize (Hc sid). lia.
Qed.

Lemma coll_delete_one_filter q q' (c : list document) :
  (length (filter (λ d, matches q' d = true) (coll_delete_one q c))
   ≤ length (filter (λ d, matches q' d = true) c))%nat.
Proof.
  induction c as [|d c IH]; cbn [coll_delete_one]; [done|].
  destruct (matches q d); rewrite ?filter_cons; repeat case_decide;
    cbn [length]; lia.
Qed.

Lemma one_per_session_delete q c :
  one_per_session c → one_per_session (coll_delete_one q c).
Proof.
  intros Hc sid. specialize (Hc sid).
  pose proof (coll_delete_one_filter q (BySessionId sid) c). lia.
Qed.

Lemma one_per_session_update sid u upsert c oid :
  one_per_session c →
  one_per_session (coll_update_one (BySessionId sid) u upsert c oid).1.
Proof.
  intros Hc. unfold coll_update_one.
  destruct (coll_update_first _ _ c) as [c'|] eqn:Hu; cbn [fst].
  - intros sid'.
    rewrite (coll_update_first_filter (BySessionId sid) (BySessionId sid')
               (apply_update u) c c'); [apply Hc| |exact Hu].
    intros d. apply matches_apply_update.
  - destruct upsert; cbn [fst]; [|done].
    apply one_per_session_snoc; [done|]. intros sid' [= <-].
    by apply coll_update_first_None in Hu.
Qed.

Lemma keeps_one_per_session_refl c oid : keeps_one_per_session c oid c oid.
Proof. destruct c; cbn; auto. Qed.

Lemma keeps_one_per_session_trans c1 o1 c2 o2 c3 o3 :
  keeps_one_per_session c1 o1 c2 o2 → keeps_one_per_session c2 o2 c3 o3 →
  keeps_one_per_session c1 o1 c3 o3.
Proof. destruct c1, c2, c3; unfold keeps_one_per_session; naive_solver. Qed.

(** When no session token has more than one document, this stays so after
    every handler, whatever the faults: [POST /chat] upserts, it never adds
    a second document for a token, and [GET /] and [POST /clear] add a
    document only under the token they draw, taken here not to be in use. *)
Theorem one_per_session_preserved svc body st c :
  conversations st = Some c →
  one_per_session c →
  coll_find_one (BySessionId (token_hex svc (tokens_drawn st))) c = None →
  ∀ c',
    conversations (home svc st).2 = Some c'
    ∨ conversations (chat svc body st).2 = Some c'
    ∨ conversations (get_history svc st).2 = Some c'
    ∨ conversations (clear_chat svc st).2 = Some c'
    ∨ conversations (test_mongodb svc st).2 = Some c' →
    one_per_session c'.
Proof.
  intros Hc Hone Hfresh c' [H|[H|[H|[H|H]]]].
  - destruct st as [conv sess oid calls drawn reads comps]. cbn in *.
    subst conv. revert H. unfold_app. cbn.
    destruct (sess !! "session_id"); cbn; [by intros [= <-]|].
    destruct (store_fault svc calls); cbn; intros [= <-]; [done|].
    apply one_per_session_snoc; [done|]. by intros sid [= <-].
  - pose proof (chat_preserves svc keeps_one_per_session
                  keeps_one_per_session_refl keeps_one_per_session_trans body)
      as Hp.
    specialize (Hp (λ sid u upsert c0 oid _ Hc0,
                      one_per_session_update sid u upsert c0 oid Hc0) st).
    unfold store_rel in Hp. rewrite Hc, H in Hp. by apply Hp.
  - pose proof (get_history_preserves svc keeps_one_per_session
                  keeps_one_per_session_refl keeps_one_per_session_trans st)
      as Hp.
    unfold store_rel in Hp. rewrite Hc, H in Hp. by apply Hp.
  - destruct st as [conv sess oid calls drawn reads comps]. cbn in *.
    subst conv. revert H. unfold_app. cbn.
    destruct (sess !! "session_id") as [old|]; cbn; [|by intros [= <-]].
    destruct (bool_decide (old ≠ "")); cbn; [|by intros [= <-]].
    destruct (store_fault svc calls); cbn; [by intros [= <-]|].
    destruct (store_fault svc (S calls)); cbn; intros [= <-].
    + by apply one_per_session_delete.
    + apply one_per_session_snoc; [by apply one_per_session_delete|].
      intros sid [= <-]. by apply coll_find_one_delete_None.
  - destruct st as [conv sess oid calls drawn reads comps]. cbn in *.
    subst conv. revert H. unfold_app. cbn.
    destruct (store_fault svc calls); cbn; [by intros [= <-]|].
    destruct (store_fault svc (S calls)); cbn; intros [= <-].
    + by apply one_per_session_snoc.
    + apply one_per_session_delete. by apply one_per_session_snoc.
Qed.

(** ** Start-up *)

(** The handle [conversations] is [None] after start-up exactly when one of
    the driver calls it made raised; start-up itself never raises. *)
Theorem connect_mongodb_handle fault db :
  (connect_mongodb fault db).1 = None
  ↔ ∃ n, n < connect_calls db ∧ fault n ≠ None.
Proof.
  unfold connect_mongodb, connect_calls.
  destruct (db !! "conversations") as [docs|];
    destruct (fault 0) eqn:H0, (fault 1) eqn:H1, (fault 2) eqn:H2,
             (fault 3) eqn:H3, (fault 4) eqn:H4;
    try (destruct (fault 5) eqn:H5); cbn;
    (split;
     [intros Hn;
      first [ discriminate
            | exists 0; split; [lia|congruence]
            | exists 1; split; [lia|congruence]
            | exists 2; split; [lia|congruence]
            | exists 3; split; [lia|congruence]
            | exists 4; split; [lia|congruence]
            | exists 5; split; [lia|congruence] ]
     |intros (n & Hlt & Hf); try done;
      destruct n as [|[|[|[|[|[|n]]]]]]; try lia; congruence]).
Qed.

(** A start-up without fault keeps what is stored: an existing collection
    comes back with its documents and the database is unchanged, a missing
    one is created empty and nothing else changes; and starting again gives
    the same handle and the same database. *)
Theorem connect_mongodb_restart fault db :
  (∀ n, fault n = None) →
  connect_mongodb fault db
  = (Some (default [] (db !! "conversations")),
     <["conversations" := default [] (db !! "conversations")]> db)
  ∧ (is_Some (db !! "conversations") → (connect_mongodb fault db).2 = db)
  ∧ connect_mongodb fault (connect_mongodb fault db).2
    = connect_mongodb fault db.
Proof.
  intros Hok. unfold connect_mongodb. rewrite !Hok.
  destruct (db !! "conversations") as [docs|] eqn:Hdb; cbn.
  - rewrite Hdb, insert_id by done. by repeat split.
  - rewrite lookup_insert_eq. repeat split. by intros [? ?].
Qed.

Lemma connect_mongodb_restart_witness :
  connect_mongodb (λ _, None) ∅
  = (Some [], {[ "conversations" := [] ]})
  ∧ connect_mongodb (λ _, None) (connect_mongodb (λ _, None) ∅).2
    = connect_mongodb (λ _, None) ∅.
Proof.
  destruct (connect_mongodb_restart (λ _, None) ∅ (λ _, eq_refl))
    as (Hrun & _ & Hagain).
  split; [|exact Hagain]. rewrite Hrun. reflexivity.
Defined.

(** When the collection is missing and is created, and an index cannot be
    created afterwards, the handle is [None] although the collection now
    exists: the process runs without store, and the next start-up finds the
    collection. *)
Theorem connect_mongodb_index_failure fault db e :
  fault 0 = None → fault 1 = None → fault 2 = None → fault 3 = None →
  db !! "conversations" = None →
  fault 4 = Some e ∨ fault 5 = Some e →
  connect_mongodb fault db = (None, <["conversations" := []]> db).
Proof.
  intros H0 H1 H2 H3 Hdb Hidx. unfold connect_mongodb.
  rewrite H0, H1, H2, H3, Hdb.
  destruct Hidx as [H|H]; rewrite H; [done|]. by destruct (fault 4).
Qed.

Lemma connect_mongodb_index_failure_witness :
  connect_mongodb (λ n, match n with 4 => Some "OperationFailure" | _ => None end) ∅
  = (None, {[ "conversations" := [] ]}).
Proof.
  exact (connect_mongodb_index_failure
           (λ n, match n with 4 => Some "OperationFailure" | _ => None end)
           ∅ "OperationFailure" eq_refl eq_refl eq_refl eq_refl
           (lookup_empty _) (or_introl eq_refl)).
Defined.

Lemma chat_not_configured svc o st :
  groq_client svc = None →
  (chat svc (JsonObject o) st).1 = Ok groq_not_configured.
Proof.
  intros Hg. rewrite chat_object. unfold chat_turn. rewrite Hg.
  generalize (session_resolved svc st) as st0.
  generalize (chat_session_id svc st) as sid. intros sid st0.
  destruct st0 as [conv sess oid calls drawn reads comps].
  unfold_app. split_cases; done.
Qed.

(** With [GROQ_API_KEY] unset or empty the client is [None], whatever the
    constructor would do, and every [POST /chat] with a JSON object is
    answered by the advisory, status [error]. *)
Theorem missing_api_key_advisory
    (groq_api_key : option string)
    (Groq : string → result (list chat_message → result pyval))
    fault tokens clock render o st :
  groq_api_key = None ∨ groq_api_key = Some "" →
  init_groq groq_api_key Groq = None
  ∧ (chat (Services (init_groq groq_api_key Groq) fault tokens clock render)
          (JsonObject o) st).1 = Ok groq_not_configured.
Proof.
  intros Hkey.
  assert (init_groq groq_api_key Groq = None) as Hnone
    by (by destruct Hkey as [-> | ->]).
  split; [exact Hnone|]. by apply chat_not_configured.
Qed.

Lemma missing_api_key_advisory_witness :
  init_groq (Some "") (λ _, Ok greeting) = None
  ∧ (chat (Services (init_groq (Some "") (λ _, Ok greeting)) (λ _, None)
             sample_tokens sample_clock sample_page)
          (JsonObject {[ "message" := PStr "Hello" ]}) fresh_connected).1
    = Ok groq_not_configured.
Proof.
  apply (missing_api_key_advisory (Some "") (λ _, Ok greeting) (λ _, None)
           sample_tokens sample_clock sample_page
           {[ "message" := PStr "Hello" ]} fresh_connected).
  right. reflexivity.
Defined.

(** ** [/status] *)

Lemma graceful_degradation_store svc st :
  conversations st = None ∨ (∀ n, store_fault svc n ≠ None) →
  (get_history svc st).1 = Ok no_messages
  ∧ ∀ body, conversations (chat svc body st).2 = conversations st.
Proof.
  intros Hdown. split.
  - destruct st as [conv sess oid calls drawn reads comps].
    unfold no_messages. unfold_app.
    destruct Hdown as [Hn|Hdown]; [cbn in Hn; subst conv|];
      split_cases; try no_store_call Hdown; done.
  - intros body. destruct st as [conv sess oid calls drawn reads comps].
    unfold_app.
    destruct Hdown as [Hn|Hdown]; [cbn in Hn; subst conv|];
      split_cases; try no_store_call Hdown; done.
Qed.

(** [GET /status] changes nothing and tells the truth about the other
    routes: when it reports [groq] as [disconnected] every [POST /chat] with
    a JSON object is answered by the advisory, and when it reports [mongodb]
    as [disconnected] the collection field is [none], [GET /history] is
    empty and [POST /chat] stores nothing.  Its [session] field is the token
    of the cookie, or [none] without one. *)
Theorem get_status_consistent svc render st :
  ∃ r, get_status svc render st = (Ok r, st)
    ∧ r !! "session"
      = Some (JStr (default "none" (session st !! "session_id")))
    ∧ (r !! "groq" = Some (JStr "disconnected") →
         ∀ o, (chat svc (JsonObject o) st).1 = Ok groq_not_configured)
    ∧ (r !! "mongodb" = Some (JStr "disconnected") →
         r !! "collection" = Some (JStr "none")
         ∧ (get_history svc st).1 = Ok no_messages
         ∧ ∀ body, conversations (chat svc body st).2 = None).
Proof.
  unfold get_status, bind, conversations_is_not_None, session_get, ret.
  eexists. split; [reflexivity|]. split; [done|]. split.
  - intros Hgroq o. apply chat_not_configured.
    destruct (groq_client svc); [|done]. by vm_compute in Hgroq.
  - intros Hmongo.
    destruct (conversations st) as [c|] eqn:Hc.
    { rewrite bool_decide_true in Hmongo by done. by vm_compute in Hmongo. }
    rewrite bool_decide_false by (by intros H; apply H).
    split; [done|].
    destruct (graceful_degradation_store svc st (or_introl Hc))
      as [Hh Hchat]. split; [done|]. intros body. by rewrite Hchat.
Qed.

(** ** The script [test_mongodb.py] *)

(** The script cannot be run twice.  After a run whose three driver calls
    succeed the collection exists (it was there or the run created it), and
    every later run that gets through the ping prints the success lines and
    then ["Connection failed: ..."] with the troubleshooting steps, leaving
    the database as it is: the message is that of the driver when
    [create_collection] fails in the driver, and
    ["collection conversations already exists"] otherwise. *)
Theorem test_mongodb_script_second_run first second db :
  first 0 = None →
  first 1 = None →
  first 2 = None →
  second 0 = None →
  second 1 = None →
  is_Some ((test_mongodb_script first db).2 !! "conversations")
  ∧ test_mongodb_script second (test_mongodb_script first db).2
    = (script_banner ++ script_connected ++
       script_failed (default "collection conversations already exists"
                              (second 2)),
       (test_mongodb_script first db).2).
Proof.
  intros H0 H1 H2 H0' H1'. unfold test_mongodb_script, create_collection.
  rewrite H0, H1, H2, H0', H1'.
  destruct (second 2) as [e|]; cbn [default from_option id];
    destruct (db !! "conversations") as [docs|] eqn:Hdb; cbn [fst snd];
    rewrite ?Hdb, ?lookup_insert_eq; by split.
Qed.

Lemma test_mongodb_script_second_run_witness :
  test_mongodb_script (λ _, None) ∅
  = (script_banner ++ script_connected ++ script_created,
     {[ "conversations" := [] ]})
  ∧ test_mongodb_script (λ _, None) {[ "conversations" := [] ]}
    = (script_banner ++ script_connected ++
       script_failed "collection conversations already exists",
       {[ "conversations" := [] ]}).
Proof.
  split; [reflexivity|].
  exact (proj2 (test_mongodb_script_second_run (λ _, None) (λ _, None) ∅
                  eq_refl eq_refl eq_refl eq_refl eq_refl)).
Defined.

(** The application and the script do not agree on an existing collection:
    after a start-up of the application without fault the script reports a
    failed connection, while the application starts on the database the
    script leaves, with the documents that are there. *)
Theorem script_and_application fault db :
  (∀ n, fault n = None) →
  (test_mongodb_script fault (connect_mongodb fault db).2).1
  = script_banner ++ script_connected ++
    script_failed "collection conversations already exists"
  ∧ (connect_mongodb fault (test_mongodb_script fault db).2).1
    = Some (default [] (db !! "conversations")).
Proof.
  intros Hok.
  unfold test_mongodb_script, connect_mongodb, create_collection.
  rewrite !Hok.
  destruct (db !! "conversations") as [docs|] eqn:Hdb; cbn.
  - by rewrite Hdb.
  - by rewrite !lookup_insert_eq.
Qed.

Lemma script_and_application_witness :
  (test_mongodb_script (λ _, None) (connect_mongodb (λ _, None) ∅).2).1
  = script_banner ++ script_connected ++
    script_failed "collection conversations already exists"
  ∧ (connect_mongodb (λ _, None) (test_mongodb_script (λ _, None) ∅).2).1
    = Some [].
Proof.
  exact (script_and_application (λ _, None) ∅ (λ _, eq_refl)).
Defined.

(** ** Concrete runs of the properties above *)

Lemma home_new_visitor_witness :
  ∃ st1 st2,
    home healthy fresh_connected = (sample_page "index.html", st1)
    ∧ session st1 !! "session_id" = Some (sample_tokens 0)
    ∧ conversations st1
      = Some [empty_conversation healthy fresh_connected (sample_tokens 0)]
    ∧ get_history healthy st1 = (Ok no_messages, st2).
Proof.
  apply (home_new_visitor healthy fresh_connected []).
  - reflexivity.
  - reflexivity.
  - reflexivity.
  - discriminate.
  - reflexivity.
Defined.

Lemma home_insert_fails_witness :
  ∃ st1,
    home store_down fresh_connected = (sample_page "index.html", st1)
    ∧ session st1 !! "session_id" = Some (sample_tokens 0)
    ∧ conversations st1 = Some [].
Proof.
  apply (home_insert_fails store_down fresh_connected []
           "ServerSelectionTimeoutError: timed out"); reflexivity.
Defined.

Lemma two_sessions_one_per_session :
  ∀ c, conversations two_sessions = Some c → one_per_session c.
Proof.
  intros c [= <-] sid. rewrite !filter_cons, filter_nil.
  repeat case_decide; cbn [length]; try lia.
  cbn in *. repeat match goal with
  | H : bool_decide _ = true |- _ => apply bool_decide_eq_true in H
  end. congruence.
Qed.

Lemma one_per_session_preserved_witness :
  ∃ c',
    conversations (chat healthy (JsonObject {[ "message" := PStr "Hello" ]})
                        two_sessions).2 = Some c'
    ∧ one_per_session c'.
Proof.
  eexists. split; [vm_compute; reflexivity|].
  apply (one_per_session_preserved healthy
           (JsonObject {[ "message" := PStr "Hello" ]}) two_sessions _
           eq_refl (two_sessions_one_per_session _ eq_refl) eq_refl).
  right. left. vm_compute. reflexivity.
Defined.
